(** * CascadedNet (lib/nets.py): a shallow embedding and its properties

    The development follows [lib/nets.py].  Tensors are rank-4 arrays
    (batch, channel, frequency, time) given by their [size] and an element
    function; element values are real numbers (complex elements are pairs
    of reals), so [torch.sigmoid], [torch.tanh] and [torch.abs] are the
    mathematical functions: rounding of float32 is outside the model.
    Python exceptions are the [Err] results of an error monad. *)

From Stdlib Require Import Reals Lra Lia Arith PeanoNat ZArith List Bool.
From Stdlib Require Import ZifyNat ZifyBool.
Import ListNotations.

(* ================================================================== *)
(** ** Errors *)

Inductive error : Type :=
| RuntimeError      (* shape, dtype and channel mismatches raised by torch *)
| AssertionError.   (* a failed [assert] *)

Inductive result (A : Type) : Type :=
| Ok (a : A)
| Err (e : error).

Arguments Ok {A} a.
Arguments Err {A} e.

Definition bind {A B : Type} (c : result A) (k : A -> result B) : result B :=
  match c with
  | Ok a => k a
  | Err e => Err e
  end.

Notation "x <- c ;; k" := (bind c (fun x => k))
  (at level 61, c at next level, right associativity).
Notation "' pat <- c ;; k" := (bind c (fun x => match x with pat => k end))
  (at level 61, pat pattern, c at next level, right associativity).

(* ================================================================== *)
(** ** Tensors *)

Definition shape : Type := (nat * nat * nat * nat)%type.

Record tensor (A : Type) : Type := mkT {
  size : shape;                              (* x.size() *)
  elem : nat -> nat -> nat -> nat -> A       (* x[b, c, f, t] *)
}.

Arguments mkT {A} size elem.
Arguments size {A} t.
Arguments elem {A} t b c f t0.

Definition dimB (s : shape) : nat := let '(B, _, _, _) := s in B.
Definition dimC (s : shape) : nat := let '(_, C, _, _) := s in C.
Definition dimF (s : shape) : nat := let '(_, _, F, _) := s in F.
Definition dimT (s : shape) : nat := let '(_, _, _, T) := s in T.

(** Extensional equality of tensors: same size, same elements in range. *)
Definition tensor_eq {A : Type} (x y : tensor A) : Prop :=
  size x = size y /\
  forall b c f t,
    b < dimB (size x) -> c < dimC (size x) ->
    f < dimF (size x) -> t < dimT (size x) ->
    elem x b c f t = elem y b c f t.

Definition tmap {A B : Type} (g : A -> B) (x : tensor A) : tensor B :=
  mkT (size x) (fun b c f t => g (elem x b c f t)).

(** Python slice [start:stop] on an axis of length [len]: the first index
    kept and the number of indices kept.  Negative bounds count from the
    end; all bounds are clamped to [0, len]. *)
Definition py_index (i : Z) (len : nat) : nat :=
  if (i <? 0)%Z then Z.to_nat (Z.max 0 (Z.of_nat len + i))
  else Nat.min (Z.to_nat i) len.

Definition py_slice (start stop : option Z) (len : nat) : nat * nat :=
  let lo := match start with Some i => py_index i len | None => 0 end in
  let hi := match stop with Some i => py_index i len | None => len end in
  (lo, hi - lo).

(** [x[:, start:stop]] *)
Definition slice_c {A : Type} (start stop : option Z) (x : tensor A) : tensor A :=
  let '(B, C, F, T) := size x in
  let '(lo, n) := py_slice start stop C in
  mkT (B, n, F, T) (fun b c f t => elem x b (lo + c) f t).

(** [x[:, :, start:stop]] *)
Definition slice_f {A : Type} (start stop : option Z) (x : tensor A) : tensor A :=
  let '(B, C, F, T) := size x in
  let '(lo, n) := py_slice start stop F in
  mkT (B, C, n, T) (fun b c f t => elem x b c (lo + f) t).

(** [x[:, :, :, start:stop]] *)
Definition slice_t {A : Type} (start stop : option Z) (x : tensor A) : tensor A :=
  let '(B, C, F, T) := size x in
  let '(lo, n) := py_slice start stop T in
  mkT (B, C, F, n) (fun b c f t => elem x b c f (lo + t)).

(** [torch.cat([x, y], dim=1)]: the other three axes must agree. *)
Definition cat2_dim1 {A : Type} (x y : tensor A) : result (tensor A) :=
  let '(B1, C1, F1, T1) := size x in
  let '(B2, C2, F2, T2) := size y in
  if (B1 =? B2) && (F1 =? F2) && (T1 =? T2) then
    Ok (mkT (B1, C1 + C2, F1, T1)
            (fun b c f t => if c <? C1 then elem x b c f t
                            else elem y b (c - C1) f t))
  else Err RuntimeError.

(** [torch.cat([x, y], dim=2)] *)
Definition cat2_dim2 {A : Type} (x y : tensor A) : result (tensor A) :=
  let '(B1, C1, F1, T1) := size x in
  let '(B2, C2, F2, T2) := size y in
  if (B1 =? B2) && (C1 =? C2) && (T1 =? T2) then
    Ok (mkT (B1, C1, F1 + F2, T1)
            (fun b c f t => if f <? F1 then elem x b c f t
                            else elem y b c (f - F1) t))
  else Err RuntimeError.

Fixpoint cat_from {A : Type} (cat2 : tensor A -> tensor A -> result (tensor A))
    (acc : tensor A) (xs : list (tensor A)) : result (tensor A) :=
  match xs with
  | [] => Ok acc
  | y :: ys => z <- cat2 acc y ;; cat_from cat2 z ys
  end.

(** [torch.cat(xs, dim)] for [dim] 1 and 2; an empty list is an error. *)
Definition torch_cat {A : Type} (xs : list (tensor A)) (dim : nat)
  : result (tensor A) :=
  match xs with
  | [] => Err RuntimeError
  | x :: ys =>
      match dim with
      | 1 => cat_from cat2_dim1 x ys
      | 2 => cat_from cat2_dim2 x ys
      | _ => Err RuntimeError
      end
  end.

(** Broadcasting of one axis: equal extents, or one of them is 1. *)
Definition broadcast_dim (d1 d2 : nat) : option nat :=
  if d1 =? d2 then Some d1
  else if d1 =? 1 then Some d2
  else if d2 =? 1 then Some d1
  else None.

Definition broadcast_shape (s1 s2 : shape) : option shape :=
  let '(B1, C1, F1, T1) := s1 in
  let '(B2, C2, F2, T2) := s2 in
  match broadcast_dim B1 B2, broadcast_dim C1 C2,
        broadcast_dim F1 F2, broadcast_dim T1 T2 with
  | Some B, Some C, Some F, Some T => Some (B, C, F, T)
  | _, _, _, _ => None
  end.

(** Index into an axis of extent [d] that may have been broadcast. *)
Definition bidx (d i : nat) : nat := if d =? 1 then 0 else i.

(** An elementwise binary operation with broadcasting, as [x * y]. *)
Definition zip_broadcast {A B C : Type} (g : A -> B -> C)
    (x : tensor A) (y : tensor B) : result (tensor C) :=
  match broadcast_shape (size x) (size y) with
  | Some s =>
      let '(B1, C1, F1, T1) := size x in
      let '(B2, C2, F2, T2) := size y in
      Ok (mkT s (fun b c f t =>
                   g (elem x (bidx B1 b) (bidx C1 c) (bidx F1 f) (bidx T1 t))
                     (elem y (bidx B2 b) (bidx C2 c) (bidx F2 f) (bidx T2 t))))
  | None => Err RuntimeError
  end.

(** [F.pad(input, pad=(0, 0, 0, k), mode='replicate')]: the frequency
    axis grows by [k] rows, each a copy of the last row (a negative [k]
    removes rows); torch rejects an input with an empty non-batch axis. *)
Definition pad_replicate_bottom {A : Type} (k : Z) (x : tensor A)
  : result (tensor A) :=
  let '(B, C, F, T) := size x in
  if (C =? 0) || (F =? 0) || (T =? 0) then Err RuntimeError
  else Ok (mkT (B, C, Z.to_nat (Z.of_nat F + k), T)
               (fun b c f t => elem x b c (Nat.min f (F - 1)) t)).

(* ================================================================== *)
(** ** Real and complex elements *)

Local Open Scope R_scope.

(** Complex numbers are pairs (real part, imaginary part). *)
Abbreviation complex := (R * R)%type.

Definition RtoC (r : R) : complex := (r, 0).
Definition Cmul (u v : complex) : complex :=
  (fst u * fst v - snd u * snd v, fst u * snd v + snd u * fst v).
Definition Cdiv (u v : complex) : complex :=
  let d := fst v * fst v + snd v * snd v in
  ((fst u * fst v + snd u * snd v) / d, (snd u * fst v - fst u * snd v) / d).
(** [torch.abs] of a complex number *)
Definition Cabs (u : complex) : R := sqrt (fst u * fst u + snd u * snd u).

(** [torch.sigmoid] *)
Definition sigmoid (x : R) : R := 1 / (1 + exp (- x)).

(** A tensor value as Python sees it: real (float32) or complex (complex64). *)
Inductive Tensor : Type :=
| RealT (x : tensor R)
| CplxT (x : tensor complex).

Definition Tensor_size (x : Tensor) : shape :=
  match x with RealT a => size a | CplxT a => size a end.

(** [x * y] with type promotion *)
Definition Tensor_mul (x y : Tensor) : result Tensor :=
  match x, y with
  | RealT a, RealT b => r <- zip_broadcast Rmult a b ;; Ok (RealT r)
  | CplxT a, CplxT b => r <- zip_broadcast Cmul a b ;; Ok (CplxT r)
  | RealT a, CplxT b => r <- zip_broadcast Cmul (tmap RtoC a) b ;; Ok (CplxT r)
  | CplxT a, RealT b => r <- zip_broadcast Cmul a (tmap RtoC b) ;; Ok (CplxT r)
  end.

(** [x[:, :, :, start:stop]] *)
Definition Tensor_slice_t (start stop : option Z) (x : Tensor) : Tensor :=
  match x with
  | RealT a => RealT (slice_t start stop a)
  | CplxT a => CplxT (slice_t start stop a)
  end.

Definition Tensor_slice_f (start stop : option Z) (x : Tensor) : Tensor :=
  match x with
  | RealT a => RealT (slice_f start stop a)
  | CplxT a => CplxT (slice_f start stop a)
  end.

Definition Tensor_pad_replicate_bottom (k : Z) (x : Tensor) : result Tensor :=
  match x with
  | RealT a => r <- pad_replicate_bottom k a ;; Ok (RealT r)
  | CplxT a => r <- pad_replicate_bottom k a ;; Ok (CplxT r)
  end.

Definition Tensor_eq (x y : Tensor) : Prop :=
  match x, y with
  | RealT a, RealT b => tensor_eq a b
  | CplxT a, CplxT b => tensor_eq a b
  | _, _ => False
  end.

(** [torch.cat([x.real, x.imag], dim=1)]: [x.imag] of a real tensor raises. *)
Definition cat_real_imag (x : Tensor) : result (tensor R) :=
  match x with
  | CplxT a => torch_cat [tmap fst a; tmap snd a] 1
  | RealT _ => Err RuntimeError
  end.

(** [torch.complex(re, im)] *)
Definition torch_complex (re im : tensor R) : result (tensor complex) :=
  zip_broadcast (fun a b => (a, b)) re im.

(** [nn.Conv2d(nin, nout, 1, bias=False)] with weight [w[o][c]]: every
    output channel is a linear combination of the input channels.  On an
    input without channels ([nin = 0]) torch does not run the convolution
    and returns a tensor without channels. *)
Fixpoint channel_sum (w : nat -> R) (x : nat -> R) (n : nat) : R :=
  match n with
  | O => 0
  | S k => channel_sum w x k + w k * x k
  end.

Definition Conv2d_1x1 (nin nout : nat) (w : nat -> nat -> R) (x : tensor R)
  : result (tensor R) :=
  let '(B, Cx, F, T) := size x in
  if Cx =? nin then
    Ok (mkT (B, (if nin =? 0 then 0%nat else nout), F, T)
            (fun b o f t => channel_sum (w o) (fun c => elem x b c f t) nin))
  else Err RuntimeError.

(** [CascadedNet.bounded_mask(mask, eps=1e-8)]; [self] is not used.  The
    operations are those of the source in the order of the source, on
    exact real and complex numbers: what float32 rounding, saturation of
    [tanh] or overflow do to the values is not part of this model, and no
    bound on the values is derived from it. *)
Definition bounded_mask (mask : tensor complex) (eps : R)
  : result (tensor complex) :=
  let mask_mag := tmap Cabs mask in
  num <- zip_broadcast Cmul (tmap RtoC (tmap tanh mask_mag)) mask ;;
  zip_broadcast Cdiv num (tmap RtoC (tmap (fun a => a + eps) mask_mag)).

Definition bounded_mask_eps : R := 1e-8.

Local Close Scope R_scope.

(* ================================================================== *)
(** ** The building blocks of [lib/layers.py] *)

(** Modelled from the spec: [lib/layers.py] is not part of the sources, so
    its five blocks are an interface.  Each constructor takes the
    arguments the source passes to it and the learned parameters of the
    instance, and yields the block's call. *)
Class Layers : Type := {
  params : Type;
  (* layers.Conv2DBNActiv(nin, nout, ksize, stride, pad) *)
  Conv2DBNActiv :
    nat -> nat -> nat -> nat -> nat -> params -> tensor R -> result (tensor R);
  (* layers.Encoder(nin, nout, ksize, stride, pad) *)
  Encoder :
    nat -> nat -> nat -> nat -> nat -> params -> tensor R -> result (tensor R);
  (* layers.Decoder(nin, nout, ksize, stride, pad), called as dec(h, skip) *)
  Decoder :
    nat -> nat -> nat -> nat -> nat -> params ->
    tensor R -> tensor R -> result (tensor R);
  (* layers.ASPPModule(nin, nout, dilations, dropout=...) *)
  ASPPModule :
    nat -> nat -> list (nat * nat) -> bool -> params ->
    tensor R -> result (tensor R);
  (* layers.LSTMModule(nin_conv, nin_lstm, nout_lstm) *)
  LSTMModule :
    nat -> nat -> nat -> params -> tensor R -> result (tensor R)
}.

(** Extent of one spatial axis after a convolution (dilation 1). *)
Definition conv_out (H ksize stride pad : nat) : nat :=
  (H + 2 * pad - ksize) / stride + 1.

Definition ceil_div (H stride : nat) : nat := (H + stride - 1) / stride.

(** A convolution block accepts an input whose channels match and whose
    padded spatial extent holds the kernel. *)
Definition conv_accepts (nin ksize stride pad : nat) (s : shape) : Prop :=
  dimC s = nin /\ ksize <= dimF s + 2 * pad /\ ksize <= dimT s + 2 * pad /\
  1 <= stride.

Definition conv_size (nout ksize stride pad : nat) (s : shape) : shape :=
  (dimB s, nout, conv_out (dimF s) ksize stride pad,
   conv_out (dimT s) ksize stride pad).

Definition encoder_accepts (nin ksize stride pad : nat) (s : shape) : Prop :=
  dimC s = nin /\ 1 <= dimF s /\ 1 <= dimT s /\ 1 <= stride /\
  ksize = 2 * pad + 1.

Definition encoder_size (nout stride : nat) (s : shape) : shape :=
  (dimB s, nout, ceil_div (dimF s) stride, ceil_div (dimT s) stride).

Definition decoder_accepts (nin ksize stride pad : nat) (sh sk : shape) : Prop :=
  dimB sh = dimB sk /\ dimC sh + dimC sk = nin /\
  1 <= dimF sh <= dimF sk /\ 1 <= dimT sh <= dimT sk /\
  stride = 1 /\ ksize = 2 * pad + 1.

Definition decoder_size (nout : nat) (sk : shape) : shape :=
  (dimB sk, nout, dimF sk, dimT sk).

Definition aspp_accepts (nin : nat) (s : shape) : Prop :=
  dimC s = nin /\ 1 <= dimF s /\ 1 <= dimT s.

Definition aspp_size (nout : nat) (s : shape) : shape :=
  (dimB s, nout, dimF s, dimT s).

Definition lstm_accepts (nin_conv nin_lstm : nat) (s : shape) : Prop :=
  dimC s = nin_conv /\ dimF s = nin_lstm /\ 1 <= dimF s /\ 1 <= dimT s.

Definition lstm_size (nin_lstm : nat) (s : shape) : shape :=
  (dimB s, 1, nin_lstm, dimT s).

(** Modelled from the spec: the shape contracts of sections 4.1 to 4.5 for
    the blocks of [lib/layers.py].  A block that returns has the output
    shape of its contract; a convolution block returns only on a shape it
    accepts (a mismatch fails fast); every block returns on the shapes its
    contract accepts. *)
Class LayersSpec (L : Layers) : Prop := {
  Conv2DBNActiv_shape : forall nin nout k s p w x y,
    Conv2DBNActiv nin nout k s p w x = Ok y ->
    conv_accepts nin k s p (size x) /\ size y = conv_size nout k s p (size x);
  Conv2DBNActiv_returns : forall nin nout k s p w x,
    conv_accepts nin k s p (size x) ->
    exists y, Conv2DBNActiv nin nout k s p w x = Ok y;
  Encoder_shape : forall nin nout k s p w x y,
    Encoder nin nout k s p w x = Ok y -> size y = encoder_size nout s (size x);
  Encoder_returns : forall nin nout k s p w x,
    encoder_accepts nin k s p (size x) ->
    exists y, Encoder nin nout k s p w x = Ok y;
  Decoder_shape : forall nin nout k s p w h skip y,
    Decoder nin nout k s p w h skip = Ok y ->
    size y = decoder_size nout (size skip);
  Decoder_returns : forall nin nout k s p w h skip,
    decoder_accepts nin k s p (size h) (size skip) ->
    exists y, Decoder nin nout k s p w h skip = Ok y;
  ASPPModule_shape : forall nin nout dil dr w x y,
    ASPPModule nin nout dil dr w x = Ok y -> size y = aspp_size nout (size x);
  ASPPModule_returns : forall nin nout dil dr w x,
    aspp_accepts nin (size x) ->
    exists y, ASPPModule nin nout dil dr w x = Ok y;
  LSTMModule_shape : forall nin_conv nin_lstm nout_lstm w x y,
    LSTMModule nin_conv nin_lstm nout_lstm w x = Ok y ->
    size y = lstm_size nin_lstm (size x);
  LSTMModule_returns : forall nin_conv nin_lstm nout_lstm w x,
    lstm_accepts nin_conv nin_lstm (size x) ->
    exists y, LSTMModule nin_conv nin_lstm nout_lstm w x = Ok y
}.

(* ================================================================== *)
(** ** BaseNet *)

Section Nets.

Context {L : Layers}.

(** The learned parameters of the blocks of one [BaseNet]. *)
Record BaseNetParams : Type := {
  p_enc1 : params; p_enc2 : params; p_enc3 : params; p_enc4 : params;
  p_enc5 : params; p_aspp : params; p_dec4 : params; p_dec3 : params;
  p_dec2 : params; p_lstm_dec2 : params; p_dec1 : params
}.

Record BaseNet : Type := {
  enc1 : tensor R -> result (tensor R);
  enc2 : tensor R -> result (tensor R);
  enc3 : tensor R -> result (tensor R);
  enc4 : tensor R -> result (tensor R);
  enc5 : tensor R -> result (tensor R);
  aspp : tensor R -> result (tensor R);
  dec4 : tensor R -> tensor R -> result (tensor R);
  dec3 : tensor R -> tensor R -> result (tensor R);
  dec2 : tensor R -> tensor R -> result (tensor R);
  lstm_dec2 : tensor R -> result (tensor R);
  dec1 : tensor R -> tensor R -> result (tensor R)
}.

Definition default_dilations : list (nat * nat) := [(4, 2); (8, 4); (12, 6)].

(** [BaseNet.__init__] *)
Definition BaseNet_init (nin nout nin_lstm nout_lstm : nat)
    (dilations : list (nat * nat)) (p : BaseNetParams) : BaseNet :=
  {| enc1 := Conv2DBNActiv nin nout 3 1 1 (p_enc1 p);
     enc2 := Encoder nout (nout * 2) 3 2 1 (p_enc2 p);
     enc3 := Encoder (nout * 2) (nout * 4) 3 2 1 (p_enc3 p);
     enc4 := Encoder (nout * 4) (nout * 6) 3 2 1 (p_enc4 p);
     enc5 := Encoder (nout * 6) (nout * 8) 3 2 1 (p_enc5 p);
     aspp := ASPPModule (nout * 8) (nout * 8) dilations true (p_aspp p);
     dec4 := Decoder (nout * (6 + 8)) (nout * 6) 3 1 1 (p_dec4 p);
     dec3 := Decoder (nout * (4 + 6)) (nout * 4) 3 1 1 (p_dec3 p);
     dec2 := Decoder (nout * (2 + 4)) (nout * 2) 3 1 1 (p_dec2 p);
     lstm_dec2 := LSTMModule (nout * 2) nin_lstm nout_lstm (p_lstm_dec2 p);
     dec1 := Decoder (nout * (1 + 2) + 1) (nout * 1) 3 1 1 (p_dec1 p) |}.

(** [BaseNet.__call__] *)
Definition BaseNet_call (self : BaseNet) (x : tensor R) : result (tensor R) :=
  e1 <- enc1 self x ;;
  e2 <- enc2 self e1 ;;
  e3 <- enc3 self e2 ;;
  e4 <- enc4 self e3 ;;
  e5 <- enc5 self e4 ;;
  h <- aspp self e5 ;;
  h <- dec4 self h e4 ;;
  h <- dec3 self h e3 ;;
  h <- dec2 self h e2 ;;
  a <- lstm_dec2 self h ;;
  h <- torch_cat [h; a] 1 ;;
  h <- dec1 self h e1 ;;
  Ok h.

(** [nn.Sequential(m1, m2)] *)
Definition Sequential (m1 m2 : tensor R -> result (tensor R))
  : tensor R -> result (tensor R) :=
  fun x => y <- m1 x ;; m2 y.

(* ================================================================== *)
(** ** CascadedNet *)

(** The learned parameters of a [CascadedNet], by sub-module. *)
Record CascadedNetParams : Type := {
  p_stg1_low_band_net_0 : BaseNetParams;
  p_stg1_low_band_net_1 : params;
  p_stg1_high_band_net : BaseNetParams;
  p_stg2_low_band_net_0 : BaseNetParams;
  p_stg2_low_band_net_1 : params;
  p_stg2_high_band_net : BaseNetParams;
  p_stg3_full_band_net : BaseNetParams;
  p_out_y : nat -> nat -> R;
  p_out_v : nat -> nat -> R
}.

Record CascadedNet : Type := {
  n_fft : nat;
  hop_length : nat;
  is_complex : bool;
  max_bin : nat;
  output_bin : nat;
  nin_lstm : nat;
  offset : nat;
  stg1_low_band_net : tensor R -> result (tensor R);
  stg1_high_band_net : BaseNet;
  stg2_low_band_net : tensor R -> result (tensor R);
  stg2_high_band_net : BaseNet;
  stg3_full_band_net : BaseNet;
  out_y : tensor R -> result (tensor R);
  out_v : tensor R -> result (tensor R)
}.

(** [CascadedNet.__init__(n_fft, hop_length, nout, nout_lstm, is_complex)],
    with the parameter values [p] loaded into the modules it builds. *)
Definition CascadedNet_init (n_fft hop_length nout nout_lstm : nat)
    (is_complex : bool) (p : CascadedNetParams) : CascadedNet :=
  let max_bin := n_fft / 2 in
  let output_bin := n_fft / 2 + 1 in
  let nin_lstm := max_bin / 2 in
  let nin := if is_complex then 4 else 2 in
  {| n_fft := n_fft;
     hop_length := hop_length;
     is_complex := is_complex;
     max_bin := max_bin;
     output_bin := output_bin;
     nin_lstm := nin_lstm;
     offset := 64;
     stg1_low_band_net :=
       Sequential
         (BaseNet_call (BaseNet_init nin (nout / 2) (nin_lstm / 2) nout_lstm
                          default_dilations (p_stg1_low_band_net_0 p)))
         (Conv2DBNActiv (nout / 2) (nout / 4) 1 1 0 (p_stg1_low_band_net_1 p));
     stg1_high_band_net :=
       BaseNet_init nin (nout / 4) (nin_lstm / 2) (nout_lstm / 2)
         default_dilations (p_stg1_high_band_net p);
     stg2_low_band_net :=
       Sequential
         (BaseNet_call (BaseNet_init (nout / 4 + nin) nout (nin_lstm / 2)
                          nout_lstm default_dilations (p_stg2_low_band_net_0 p)))
         (Conv2DBNActiv nout (nout / 2) 1 1 0 (p_stg2_low_band_net_1 p));
     stg2_high_band_net :=
       BaseNet_init (nout / 4 + nin) (nout / 2) (nin_lstm / 2) (nout_lstm / 2)
         default_dilations (p_stg2_high_band_net p);
     stg3_full_band_net :=
       BaseNet_init (3 * nout / 4 + nin) nout nin_lstm nout_lstm
         default_dilations (p_stg3_full_band_net p);
     out_y := Conv2d_1x1 nout nin (p_out_y p);
     out_v := Conv2d_1x1 nout nin (p_out_v p) |}.

(** The tensors [forward] computes up to the stage-3 output, under the
    names the source gives them. *)
Record stages : Type := {
  st_x : tensor R;        (* x after the optional real/imag split and [:max_bin] *)
  st_l1_in : tensor R;
  st_h1_in : tensor R;
  st_l1 : tensor R;
  st_h1 : tensor R;
  st_aux1 : tensor R;
  st_l2_in : tensor R;
  st_h2_in : tensor R;
  st_l2 : tensor R;
  st_h2 : tensor R;
  st_aux2 : tensor R;
  st_f3_in : tensor R;
  st_f3 : tensor R
}.

(** The modules of [lib/layers.py] compute on real tensors.  In complex
    mode the input is split into real and imaginary channels; in magnitude
    mode it is passed on as it is, and a complex input is rejected by the
    first convolution. *)
Definition forward_input (self : CascadedNet) (x : Tensor) : result (tensor R) :=
  if is_complex self then cat_real_imag x
  else match x with
       | RealT a => Ok a
       | CplxT _ => Err RuntimeError
       end.

(** [CascadedNet.forward], lines 83 to 102 *)
Definition forward_stages (self : CascadedNet) (x : Tensor) : result stages :=
  x <- forward_input self x ;;
  let x := slice_f None (Some (Z.of_nat (max_bin self))) x in
  let bandw := dimF (size x) / 2 in
  let l1_in := slice_f None (Some (Z.of_nat bandw)) x in
  let h1_in := slice_f (Some (Z.of_nat bandw)) None x in
  l1 <- stg1_low_band_net self l1_in ;;
  h1 <- BaseNet_call (stg1_high_band_net self) h1_in ;;
  aux1 <- torch_cat [l1; h1] 2 ;;
  l2_in <- torch_cat [l1_in; l1] 1 ;;
  h2_in <- torch_cat [h1_in; h1] 1 ;;
  l2 <- stg2_low_band_net self l2_in ;;
  h2 <- BaseNet_call (stg2_high_band_net self) h2_in ;;
  aux2 <- torch_cat [l2; h2] 2 ;;
  f3_in <- torch_cat [x; aux1; aux2] 1 ;;
  f3 <- BaseNet_call (stg3_full_band_net self) f3_in ;;
  Ok {| st_x := x; st_l1_in := l1_in; st_h1_in := h1_in; st_l1 := l1;
        st_h1 := h1; st_aux1 := aux1; st_l2_in := l2_in; st_h2_in := h2_in;
        st_l2 := l2; st_h2 := h2; st_aux2 := aux2; st_f3_in := f3_in;
        st_f3 := f3 |}.

(** One output head, lines 104 to 113: the raw mask of the 1x1
    convolution [out], bounded in complex mode, squashed by the sigmoid in
    magnitude mode. *)
Definition mask_head (self : CascadedNet)
    (out : tensor R -> result (tensor R)) (f3 : tensor R) : result Tensor :=
  if is_complex self then
    mask <- out f3 ;;
    mask <- torch_complex (slice_c None (Some 2%Z) mask)
                          (slice_c (Some 2%Z) None mask) ;;
    mask <- bounded_mask mask bounded_mask_eps ;;
    Ok (CplxT mask)
  else
    mask <- out f3 ;;
    Ok (RealT (tmap sigmoid mask)).

(** The replicate padding of a mask up to [output_bin], lines 115 to 124 *)
Definition pad_mask (self : CascadedNet) (mask : Tensor) : result Tensor :=
  Tensor_pad_replicate_bottom
    (Z.of_nat (output_bin self) - Z.of_nat (dimF (Tensor_size mask))) mask.

(** [CascadedNet.forward] *)
Definition forward (self : CascadedNet) (x : Tensor) : result (Tensor * Tensor) :=
  st <- forward_stages self x ;;
  mask_y <- mask_head self (out_y self) (st_f3 st) ;;
  mask_v <- mask_head self (out_v self) (st_f3 st) ;;
  mask_y <- pad_mask self mask_y ;;
  mask_v <- pad_mask self mask_v ;;
  Ok (mask_y, mask_v).

(** [t[:, :, :, self.offset:-self.offset]] *)
Definition trim (self : CascadedNet) (t : Tensor) : Tensor :=
  Tensor_slice_t (Some (Z.of_nat (offset self)))
                 (Some (- Z.of_nat (offset self))%Z) t.

(** [CascadedNet.predict_mask] *)
Definition predict_mask (self : CascadedNet) (x : Tensor)
  : result (Tensor * Tensor) :=
  '(mask_y, mask_v) <- forward self x ;;
  if 0 <? offset self then
    let mask_y := trim self mask_y in
    let mask_v := trim self mask_v in
    if (0 <? dimT (Tensor_size mask_y)) && (0 <? dimT (Tensor_size mask_v))
    then Ok (mask_y, mask_v)
    else Err AssertionError
  else Ok (mask_y, mask_v).

(** [CascadedNet.predict] *)
Definition predict (self : CascadedNet) (x : Tensor)
  : result (Tensor * Tensor) :=
  '(mask_y, mask_v) <- forward self x ;;
  pred_y <- Tensor_mul x mask_y ;;
  pred_v <- Tensor_mul x mask_v ;;
  if 0 <? offset self then
    let pred_y := trim self pred_y in
    let pred_v := trim self pred_v in
    if (0 <? dimT (Tensor_size pred_y)) && (0 <? dimT (Tensor_size pred_v))
    then Ok (pred_y, pred_v)
    else Err AssertionError
  else Ok (pred_y, pred_v).

End Nets.

(* ================================================================== *)
(** ** A concrete instance of the layer interface

    Blocks whose output is the all-zero tensor of the contract's shape.
    They give the statements below concrete networks to run on. *)

Definition zeros (s : shape) : tensor R := mkT s (fun _ _ _ _ => 0%R).

Definition conv_acceptsb (nin ksize stride pad : nat) (s : shape) : bool :=
  (dimC s =? nin) && (ksize <=? dimF s + 2 * pad) &&
  (ksize <=? dimT s + 2 * pad) && (1 <=? stride).

Definition encoder_acceptsb (nin ksize stride pad : nat) (s : shape) : bool :=
  (dimC s =? nin) && (1 <=? dimF s) && (1 <=? dimT s) && (1 <=? stride) &&
  (ksize =? 2 * pad + 1).

Definition decoder_acceptsb (nin ksize stride pad : nat) (sh sk : shape) : bool :=
  (dimB sh =? dimB sk) && (dimC sh + dimC sk =? nin) &&
  (1 <=? dimF sh) && (dimF sh <=? dimF sk) &&
  (1 <=? dimT sh) && (dimT sh <=? dimT sk) &&
  (stride =? 1) && (ksize =? 2 * pad + 1).

Definition aspp_acceptsb (nin : nat) (s : shape) : bool :=
  (dimC s =? nin) && (1 <=? dimF s) && (1 <=? dimT s).

Definition lstm_acceptsb (nin_conv nin_lstm : nat) (s : shape) : bool :=
  (dimC s =? nin_conv) && (dimF s =? nin_lstm) && (1 <=? dimF s) &&
  (1 <=? dimT s).

Definition zero_layers : Layers := {|
  params := unit;
  Conv2DBNActiv := fun nin nout k s p _ x =>
    if conv_acceptsb nin k s p (size x)
    then Ok (zeros (conv_size nout k s p (size x))) else Err RuntimeError;
  Encoder := fun nin nout k s p _ x =>
    if encoder_acceptsb nin k s p (size x)
    then Ok (zeros (encoder_size nout s (size x))) else Err RuntimeError;
  Decoder := fun nin nout k s p _ h skip =>
    if decoder_acceptsb nin k s p (size h) (size skip)
    then Ok (zeros (decoder_size nout (size skip))) else Err RuntimeError;
  ASPPModule := fun nin nout _ _ _ x =>
    if aspp_acceptsb nin (size x)
    then Ok (zeros (aspp_size nout (size x))) else Err RuntimeError;
  LSTMModule := fun nin_conv nin_lstm _ _ x =>
    if lstm_acceptsb nin_conv nin_lstm (size x)
    then Ok (zeros (lstm_size nin_lstm (size x))) else Err RuntimeError
|}.

Definition zero_base_params : @BaseNetParams zero_layers :=
  @Build_BaseNetParams zero_layers tt tt tt tt tt tt tt tt tt tt tt.

(** Parameters whose two output convolutions have the weight [w]. *)
Definition zero_params (w : nat -> nat -> R) : @CascadedNetParams zero_layers :=
  @Build_CascadedNetParams zero_layers
    zero_base_params tt zero_base_params
    zero_base_params tt zero_base_params
    zero_base_params w w.

(** A magnitude-mode network with [n_fft = 8]: [max_bin = 4],
    [output_bin = 5], [nin_lstm = 2]. *)
Definition net8 : CascadedNet :=
  CascadedNet_init 8 2 32 128 false (zero_params (fun _ _ => 0%R)).

(** The same network in complex mode. *)
Definition net8c : CascadedNet :=
  CascadedNet_init 8 2 32 128 true (zero_params (fun _ _ => 0%R)).

(** A magnitude spectrogram of shape (1, 2, F, T) whose element at
    frequency bin [f] is [f + 1]. *)
Definition ramp (F T : nat) : Tensor :=
  RealT (mkT (1, 2, F, T) (fun _ _ f _ => INR (f + 1))).

(** A complex spectrogram of shape (1, 2, F, T). *)
Definition cramp (F T : nat) : Tensor :=
  CplxT (mkT (1, 2, F, T) (fun _ _ f _ => (INR (f + 1), 0%R))).

(* ================================================================== *)
(** ** Vocabulary of the statements *)

(** [x[b, c, f, t]] of a tensor value, as a complex number. *)
Definition Tensor_elem (x : Tensor) (b c f t : nat) : complex :=
  match x with
  | RealT a => RtoC (elem a b c f t)
  | CplxT a => elem a b c f t
  end.

(** The sizes of the tensors of [forward] for batch [B], band channels
    [nin], base width [nout], truncated frequency extent [Fx] and [T]
    frames. *)
Definition stage_sizes (B nin nout Fx T : nat) (st : stages) : Prop :=
  size (st_x st) = (B, nin, Fx, T) /\
  size (st_l1_in st) = (B, nin, Fx / 2, T) /\
  size (st_h1_in st) = (B, nin, Fx - Fx / 2, T) /\
  size (st_l1 st) = (B, nout / 4, Fx / 2, T) /\
  size (st_h1 st) = (B, nout / 4, Fx - Fx / 2, T) /\
  size (st_aux1 st) = (B, nout / 4, Fx, T) /\
  size (st_l2_in st) = (B, nin + nout / 4, Fx / 2, T) /\
  size (st_h2_in st) = (B, nin + nout / 4, Fx - Fx / 2, T) /\
  size (st_l2 st) = (B, nout / 2, Fx / 2, T) /\
  size (st_h2 st) = (B, nout / 2, Fx - Fx / 2, T) /\
  size (st_aux2 st) = (B, nout / 2, Fx, T) /\
  size (st_f3_in st) = (B, nin + nout / 4 + nout / 2, Fx, T) /\
  size (st_f3 st) = (B, nout, Fx, T).

(** The element [bounded_mask] computes from the element [m] of its input. *)
Definition bounded_mask_elem (eps : R) (m : complex) : complex :=
  Cdiv (Cmul (RtoC (tanh (Cabs m))) m) (RtoC (Cabs m + eps)).

(** The bounded-mask normalization in the spec's words:
    [mask * tanh(|mask|) / (|mask| + eps)]. *)
Definition bounded_mask_spec (eps : R) (m : complex) : complex :=
  ((fst m * tanh (Cabs m)) / (Cabs m + eps),
   (snd m * tanh (Cabs m)) / (Cabs m + eps))%R.

(** What a padded mask [m] of [forward] is in terms of the raw mask [raw]
    of its 1x1 convolution: the row [f] of [m] is computed from the row
    [min f (F - 1)] of [raw], where [F] is the frequency extent of [raw]. *)
Definition padded_mask (ic : bool) (ob : nat) (raw : tensor R) (m : Tensor)
  : Prop :=
  let last := dimF (size raw) - 1 in
  Tensor_size m = (dimB (size raw), 2, ob, dimT (size raw)) /\
  if ic then
    exists a, m = CplxT a /\
      forall b c f t,
        b < dimB (size raw) -> c < 2 -> t < dimT (size raw) ->
        elem a b c f t
        = bounded_mask_elem bounded_mask_eps
            (elem raw b c (Nat.min f last) t,
             elem raw b (2 + c) (Nat.min f last) t)
  else
    exists a, m = RealT a /\
      forall b c f t,
        elem a b c f t = sigmoid (elem raw b c (Nat.min f last) t).

(** Both tensors real, or both complex. *)
Definition same_dtype (x y : Tensor) : Prop :=
  match x, y with
  | RealT _, RealT _ => True
  | CplxT _, CplxT _ => True
  | _, _ => False
  end.

(** The input of [predict] as the claim C1 words it: truncated to
    [max_bin] frequency bins, then padded back to [output_bin] bins (by
    replication of the last row, as the masks are). *)
Definition x_truncated_then_padded (self : CascadedNet) (x : Tensor)
  : result Tensor :=
  let xt := Tensor_slice_f None (Some (Z.of_nat (max_bin self))) x in
  Tensor_pad_replicate_bottom
    (Z.of_nat (output_bin self) - Z.of_nat (dimF (Tensor_size xt))) xt.

(** C1 as worded: [predict] is the product of the truncated-then-padded
    input with the masks of [predict_mask], up to the trimming. *)
Definition predict_as_worded {L : Layers} (self : CascadedNet) (x : Tensor)
  : Prop :=
  forall py pv my mv,
    predict self x = Ok (py, pv) -> predict_mask self x = Ok (my, mv) ->
    exists xp qy qv,
      x_truncated_then_padded self x = Ok xp /\
      Tensor_mul (trim self xp) my = Ok qy /\
      Tensor_mul (trim self xp) mv = Ok qv /\
      Tensor_eq py qy /\ Tensor_eq pv qv.

(** A magnitude-mode network with [n_fft = 8] and base width [nout = 2]:
    its stage-1 networks have [nout // 4 = 0] output channels. *)
Definition net8_width2 : CascadedNet :=
  CascadedNet_init 8 2 2 128 false (zero_params (fun _ _ => 0%R)).

(** The last clause of C6 as worded: the channel count of the input
    strictly grows from each stage to the next. *)
Definition context_strictly_grows (self : CascadedNet) (x : Tensor) : Prop :=
  forall st,
    forward_stages self x = Ok st ->
    dimC (size (st_l1_in st)) < dimC (size (st_l2_in st)) /\
    dimC (size (st_l2_in st)) < dimC (size (st_f3_in st)).


(* ================================================================== *)
(** * Properties *)

Ltac Zify.zify_post_hook ::= Z.to_euclidean_division_equations.

(** ** The error monad *)

Lemma bind_ok_inv {A B : Type} (c : result A) (k : A -> result B) (b : B) :
  bind c k = Ok b -> exists a, c = Ok a /\ k a = Ok b.
Proof.
  destruct c as [a | e]; cbn [bind]; intros H; [eauto | discriminate].
Qed.

Lemma bind_err_inv {A B : Type} (c : result A) (k : A -> result B) (e : error) :
  bind c k = Err e -> c = Err e \/ exists a, c = Ok a /\ k a = Err e.
Proof.
  destruct c as [a | e']; cbn [bind]; intros H; [eauto | left; congruence].
Qed.

(** Splits a hypothesis [x <- c ;; k = Ok b] into [c = Ok a] and [k a = Ok b]. *)
Ltac inv_bind H :=
  let a := fresh "v" in
  let E := fresh "E" in
  apply bind_ok_inv in H; destruct H as (a & E & H).

(** ** Shapes of the tensor operations *)

Lemma size_eta (s : shape) : s = (dimB s, dimC s, dimF s, dimT s).
Proof. destruct s as [[[B C] F] T]; reflexivity. Qed.

Lemma py_slice_to (n len : nat) :
  py_slice None (Some (Z.of_nat n)) len = (0, Nat.min n len).
Proof.
  unfold py_slice, py_index.
  destruct (Z.ltb_spec (Z.of_nat n) 0); [lia | f_equal; lia].
Qed.

Lemma py_slice_from (n len : nat) :
  py_slice (Some (Z.of_nat n)) None len = (Nat.min n len, len - Nat.min n len).
Proof.
  unfold py_slice, py_index.
  destruct (Z.ltb_spec (Z.of_nat n) 0); [lia | f_equal; lia].
Qed.

Lemma py_slice_trim (o len : nat) :
  0 < o ->
  py_slice (Some (Z.of_nat o)) (Some (- Z.of_nat o)%Z) len
  = (Nat.min o len, len - o - Nat.min o len).
Proof.
  intros Ho. unfold py_slice, py_index.
  destruct (Z.ltb_spec (Z.of_nat o) 0); [lia |].
  destruct (Z.ltb_spec (- Z.of_nat o) 0); [| lia].
  f_equal; lia.
Qed.

Lemma slice_f_size {A : Type} (start stop : option Z) (x : tensor A) :
  size (slice_f start stop x)
  = (dimB (size x), dimC (size x),
     snd (py_slice start stop (dimF (size x))), dimT (size x)).
Proof.
  unfold slice_f. destruct (size x) as [[[B C] F] T]. cbn [dimB dimC dimF dimT].
  destruct (py_slice start stop F); reflexivity.
Qed.

Lemma slice_f_elem {A : Type} (start stop : option Z) (x : tensor A) b c f t :
  elem (slice_f start stop x) b c f t
  = elem x b c (fst (py_slice start stop (dimF (size x))) + f) t.
Proof.
  unfold slice_f. destruct (size x) as [[[B C] F] T]. cbn [dimB dimC dimF dimT].
  destruct (py_slice start stop F); reflexivity.
Qed.

Lemma slice_c_size {A : Type} (start stop : option Z) (x : tensor A) :
  size (slice_c start stop x)
  = (dimB (size x), snd (py_slice start stop (dimC (size x))),
     dimF (size x), dimT (size x)).
Proof.
  unfold slice_c. destruct (size x) as [[[B C] F] T]. cbn [dimB dimC dimF dimT].
  destruct (py_slice start stop C); reflexivity.
Qed.

Lemma slice_t_size {A : Type} (start stop : option Z) (x : tensor A) :
  size (slice_t start stop x)
  = (dimB (size x), dimC (size x), dimF (size x),
     snd (py_slice start stop (dimT (size x)))).
Proof.
  unfold slice_t. destruct (size x) as [[[B C] F] T]. cbn [dimB dimC dimF dimT].
  destruct (py_slice start stop T); reflexivity.
Qed.

Lemma slice_t_elem {A : Type} (start stop : option Z) (x : tensor A) b c f t :
  elem (slice_t start stop x) b c f t
  = elem x b c f (fst (py_slice start stop (dimT (size x))) + t).
Proof.
  unfold slice_t. destruct (size x) as [[[B C] F] T]. cbn [dimB dimC dimF dimT].
  destruct (py_slice start stop T); reflexivity.
Qed.

Lemma cat2_dim1_inv {A : Type} (x y z : tensor A) :
  cat2_dim1 x y = Ok z ->
  dimB (size x) = dimB (size y) /\ dimF (size x) = dimF (size y) /\
  dimT (size x) = dimT (size y) /\
  size z = (dimB (size x), dimC (size x) + dimC (size y),
            dimF (size x), dimT (size x)) /\
  forall b c f t,
    elem z b c f t = if c <? dimC (size x) then elem x b c f t
                     else elem y b (c - dimC (size x)) f t.
Proof.
  unfold cat2_dim1.
  destruct (size x) as [[[B1 C1] F1] T1], (size y) as [[[B2 C2] F2] T2].
  cbn [dimB dimC dimF dimT].
  destruct ((B1 =? B2) && (F1 =? F2) && (T1 =? T2)) eqn:E; [| discriminate].
  intros H. injection H as <-. cbn [size elem].
  repeat split; lia.
Qed.

Lemma cat2_dim2_inv {A : Type} (x y z : tensor A) :
  cat2_dim2 x y = Ok z ->
  dimB (size x) = dimB (size y) /\ dimC (size x) = dimC (size y) /\
  dimT (size x) = dimT (size y) /\
  size z = (dimB (size x), dimC (size x),
            dimF (size x) + dimF (size y), dimT (size x)) /\
  forall b c f t,
    elem z b c f t = if f <? dimF (size x) then elem x b c f t
                     else elem y b c (f - dimF (size x)) t.
Proof.
  unfold cat2_dim2.
  destruct (size x) as [[[B1 C1] F1] T1], (size y) as [[[B2 C2] F2] T2].
  cbn [dimB dimC dimF dimT].
  destruct ((B1 =? B2) && (C1 =? C2) && (T1 =? T2)) eqn:E; [| discriminate].
  intros H. injection H as <-. cbn [size elem].
  repeat split; lia.
Qed.

Lemma cat2_dim1_returns {A : Type} (x y : tensor A) :
  dimB (size x) = dimB (size y) -> dimF (size x) = dimF (size y) ->
  dimT (size x) = dimT (size y) ->
  exists z, cat2_dim1 x y = Ok z.
Proof.
  unfold cat2_dim1.
  destruct (size x) as [[[B1 C1] F1] T1], (size y) as [[[B2 C2] F2] T2].
  cbn [dimB dimC dimF dimT]. intros -> -> ->.
  rewrite !Nat.eqb_refl. cbn [andb]. eauto.
Qed.

Lemma cat2_dim2_returns {A : Type} (x y : tensor A) :
  dimB (size x) = dimB (size y) -> dimC (size x) = dimC (size y) ->
  dimT (size x) = dimT (size y) ->
  exists z, cat2_dim2 x y = Ok z.
Proof.
  unfold cat2_dim2.
  destruct (size x) as [[[B1 C1] F1] T1], (size y) as [[[B2 C2] F2] T2].
  cbn [dimB dimC dimF dimT]. intros -> -> ->.
  rewrite !Nat.eqb_refl. cbn [andb]. eauto.
Qed.

Lemma torch_cat2_dim1 {A : Type} (x y : tensor A) :
  torch_cat [x; y] 1 = cat2_dim1 x y.
Proof. cbn. destruct (cat2_dim1 x y); reflexivity. Qed.

Lemma torch_cat2_dim2 {A : Type} (x y : tensor A) :
  torch_cat [x; y] 2 = cat2_dim2 x y.
Proof. cbn. destruct (cat2_dim2 x y); reflexivity. Qed.

Lemma torch_cat3_dim1 {A : Type} (x y z : tensor A) :
  torch_cat [x; y; z] 1 = (a <- cat2_dim1 x y ;; cat2_dim1 a z).
Proof.
  cbn. destruct (cat2_dim1 x y) as [a | e]; cbn; [| reflexivity].
  destruct (cat2_dim1 a z); reflexivity.
Qed.

Lemma ceil_div_2_bounds (H : nat) : 1 <= H -> 1 <= ceil_div H 2 <= H.
Proof. unfold ceil_div. lia. Qed.

(** ** BaseNet keeps the spatial shape of its input *)

Section BaseNetShape.
Context {L : Layers} {HL : LayersSpec L}.

Lemma BaseNet_call_shape nin nout nl nol dil p x y :
  BaseNet_call (BaseNet_init nin nout nl nol dil p) x = Ok y ->
  dimC (size x) = nin /\ 1 <= dimF (size x) /\ 1 <= dimT (size x) /\
  ceil_div (dimF (size x)) 2 = nl /\
  size y = (dimB (size x), nout * 1, dimF (size x), dimT (size x)).
Proof.
  unfold BaseNet_call, BaseNet_init.
  cbn [enc1 enc2 enc3 enc4 enc5 aspp dec4 dec3 dec2 lstm_dec2 dec1].
  intros H. repeat inv_bind H. injection H as <-.
  apply Conv2DBNActiv_shape in E. destruct E as ((HC & HF & HT & _) & Se1).
  apply Encoder_shape in E0.
  apply Decoder_shape in E7, E10.
  apply LSTMModule_shape in E8.
  rewrite torch_cat2_dim1 in E9. apply cat2_dim1_inv in E9.
  destruct E9 as (_ & HFcat & _).
  rewrite E7, E8, E0, Se1 in HFcat.
  rewrite E10, Se1.
  unfold decoder_size, lstm_size, encoder_size, conv_size, conv_out, ceil_div in *.
  cbn [dimB dimC dimF dimT] in *.
  repeat split; try assumption; try lia.
  repeat f_equal; lia.
Qed.

Lemma BaseNet_call_returns nin nout nl nol dil p x :
  dimC (size x) = nin -> 1 <= dimF (size x) -> 1 <= dimT (size x) ->
  ceil_div (dimF (size x)) 2 = nl ->
  exists y, BaseNet_call (BaseNet_init nin nout nl nol dil p) x = Ok y.
Proof.
  intros HC HF HT Hl.
  unfold BaseNet_call, BaseNet_init.
  cbn [enc1 enc2 enc3 enc4 enc5 aspp dec4 dec3 dec2 lstm_dec2 dec1].
  pose proof (ceil_div_2_bounds _ HF) as HF2.
  pose proof (ceil_div_2_bounds _ HT) as HT2.
  pose proof (ceil_div_2_bounds _ (proj1 HF2)) as HF3.
  pose proof (ceil_div_2_bounds _ (proj1 HT2)) as HT3.
  pose proof (ceil_div_2_bounds _ (proj1 HF3)) as HF4.
  pose proof (ceil_div_2_bounds _ (proj1 HT3)) as HT4.
  pose proof (ceil_div_2_bounds _ (proj1 HF4)) as HF5.
  pose proof (ceil_div_2_bounds _ (proj1 HT4)) as HT5.
  destruct (Conv2DBNActiv_returns nin nout 3 1 1 (p_enc1 p) x) as [e1 E1].
  { unfold conv_accepts. lia. }
  rewrite E1. cbn [bind].
  apply Conv2DBNActiv_shape in E1 as [_ S1].
  assert (S1' : size e1 = (dimB (size x), nout, dimF (size x), dimT (size x))).
  { rewrite S1. unfold conv_size, conv_out. repeat f_equal; lia. }
  clear S1.
  destruct (Encoder_returns nout (nout * 2) 3 2 1 (p_enc2 p) e1) as [e2 E2].
  { rewrite S1'. unfold encoder_accepts; cbn [dimB dimC dimF dimT]. lia. }
  rewrite E2. cbn [bind]. apply Encoder_shape in E2.
  rewrite S1' in E2. unfold encoder_size in E2. cbn [dimB dimC dimF dimT] in E2.
  destruct (Encoder_returns (nout * 2) (nout * 4) 3 2 1 (p_enc3 p) e2) as [e3 E3].
  { rewrite E2. unfold encoder_accepts; cbn [dimB dimC dimF dimT]. lia. }
  rewrite E3. cbn [bind]. apply Encoder_shape in E3.
  rewrite E2 in E3. unfold encoder_size in E3. cbn [dimB dimC dimF dimT] in E3.
  destruct (Encoder_returns (nout * 4) (nout * 6) 3 2 1 (p_enc4 p) e3) as [e4 E4].
  { rewrite E3. unfold encoder_accepts; cbn [dimB dimC dimF dimT]. lia. }
  rewrite E4. cbn [bind]. apply Encoder_shape in E4.
  rewrite E3 in E4. unfold encoder_size in E4. cbn [dimB dimC dimF dimT] in E4.
  destruct (Encoder_returns (nout * 6) (nout * 8) 3 2 1 (p_enc5 p) e4) as [e5 E5].
  { rewrite E4. unfold encoder_accepts; cbn [dimB dimC dimF dimT]. lia. }
  rewrite E5. cbn [bind]. apply Encoder_shape in E5.
  rewrite E4 in E5. unfold encoder_size in E5. cbn [dimB dimC dimF dimT] in E5.
  destruct (ASPPModule_returns (nout * 8) (nout * 8) dil true (p_aspp p) e5)
    as [h5 A5].
  { rewrite E5. unfold aspp_accepts; cbn [dimB dimC dimF dimT]. lia. }
  rewrite A5. cbn [bind]. apply ASPPModule_shape in A5.
  rewrite E5 in A5. unfold aspp_size in A5. cbn [dimB dimC dimF dimT] in A5.
  destruct (Decoder_returns (nout * (6 + 8)) (nout * 6) 3 1 1 (p_dec4 p) h5 e4)
    as [h4 D4].
  { rewrite A5, E4. unfold decoder_accepts; cbn [dimB dimC dimF dimT]. lia. }
  rewrite D4. cbn [bind]. apply Decoder_shape in D4.
  rewrite E4 in D4. unfold decoder_size in D4. cbn [dimB dimC dimF dimT] in D4.
  destruct (Decoder_returns (nout * (4 + 6)) (nout * 4) 3 1 1 (p_dec3 p) h4 e3)
    as [h3 D3].
  { rewrite D4, E3. unfold decoder_accepts; cbn [dimB dimC dimF dimT]. lia. }
  rewrite D3. cbn [bind]. apply Decoder_shape in D3.
  rewrite E3 in D3. unfold decoder_size in D3. cbn [dimB dimC dimF dimT] in D3.
  destruct (Decoder_returns (nout * (2 + 4)) (nout * 2) 3 1 1 (p_dec2 p) h3 e2)
    as [h2 D2].
  { rewrite D3, E2. unfold decoder_accepts; cbn [dimB dimC dimF dimT]. lia. }
  rewrite D2. cbn [bind]. apply Decoder_shape in D2.
  rewrite E2 in D2. unfold decoder_size in D2. cbn [dimB dimC dimF dimT] in D2.
  destruct (LSTMModule_returns (nout * 2) nl nol (p_lstm_dec2 p) h2) as [a LA].
  { rewrite D2. unfold lstm_accepts; cbn [dimB dimC dimF dimT]. lia. }
  rewrite LA. cbn [bind]. apply LSTMModule_shape in LA.
  rewrite D2 in LA. unfold lstm_size in LA. cbn [dimB dimC dimF dimT] in LA.
  rewrite torch_cat2_dim1.
  destruct (cat2_dim1_returns h2 a) as [h2' Hcat].
  1-3: rewrite D2, LA; cbn [dimB dimC dimF dimT]; lia.
  rewrite Hcat. cbn [bind]. apply cat2_dim1_inv in Hcat.
  destruct Hcat as (_ & _ & _ & Hcat & _).
  rewrite D2, LA in Hcat. cbn [dimB dimC dimF dimT] in Hcat.
  destruct (Decoder_returns (nout * (1 + 2) + 1) (nout * 1) 3 1 1 (p_dec1 p)
              h2' e1) as [h1 D1].
  { rewrite Hcat, S1'. unfold decoder_accepts; cbn [dimB dimC dimF dimT]. lia. }
  rewrite D1. cbn [bind]. eauto.
Qed.
End BaseNetShape.

(** ** Shapes along [forward] *)
Section ForwardShape.
Context {L : Layers}.

Lemma forward_stages_inv (self : CascadedNet) (x : Tensor) (st : stages) :
  forward_stages self x = Ok st ->
  exists x0,
    forward_input self x = Ok x0 /\
    st_x st = slice_f None (Some (Z.of_nat (max_bin self))) x0 /\
    st_l1_in st
    = slice_f None (Some (Z.of_nat (dimF (size (st_x st)) / 2))) (st_x st) /\
    st_h1_in st
    = slice_f (Some (Z.of_nat (dimF (size (st_x st)) / 2))) None (st_x st) /\
    stg1_low_band_net self (st_l1_in st) = Ok (st_l1 st) /\
    BaseNet_call (stg1_high_band_net self) (st_h1_in st) = Ok (st_h1 st) /\
    torch_cat [st_l1 st; st_h1 st] 2 = Ok (st_aux1 st) /\
    torch_cat [st_l1_in st; st_l1 st] 1 = Ok (st_l2_in st) /\
    torch_cat [st_h1_in st; st_h1 st] 1 = Ok (st_h2_in st) /\
    stg2_low_band_net self (st_l2_in st) = Ok (st_l2 st) /\
    BaseNet_call (stg2_high_band_net self) (st_h2_in st) = Ok (st_h2 st) /\
    torch_cat [st_l2 st; st_h2 st] 2 = Ok (st_aux2 st) /\
    torch_cat [st_x st; st_aux1 st; st_aux2 st] 1 = Ok (st_f3_in st) /\
    BaseNet_call (stg3_full_band_net self) (st_f3_in st) = Ok (st_f3 st).
Proof.
  unfold forward_stages. intros H. repeat inv_bind H. injection H as <-.
  cbn [st_x st_l1_in st_h1_in st_l1 st_h1 st_aux1 st_l2_in st_h2_in st_l2
       st_h2 st_aux2 st_f3_in st_f3].
  eexists. repeat split; eassumption.
Qed.

End ForwardShape.

Lemma shape_ext (B C F T B' C' F' T' : nat) :
  B = B' -> C = C' -> F = F' -> T = T' -> (B, C, F, T) = (B', C', F', T').
Proof. congruence. Qed.

Ltac shape_eq := apply shape_ext; cbn [dimB dimC dimF dimT fst snd]; lia.

Section ForwardShape2.
Context {L : Layers} {HL : LayersSpec L}.

Lemma forward_input_shape (self : CascadedNet) (x : Tensor) (x0 : tensor R) :
  forward_input self x = Ok x0 ->
  size x0 = (dimB (Tensor_size x),
             (if is_complex self then 2 * dimC (Tensor_size x)
              else dimC (Tensor_size x)),
             dimF (Tensor_size x), dimT (Tensor_size x)) /\
  (if is_complex self then exists a, x = CplxT a else exists a, x = RealT a).
Proof.
  unfold forward_input, cat_real_imag.
  destruct (is_complex self), x as [a | a]; try discriminate.
  - rewrite torch_cat2_dim1. intros H. apply cat2_dim1_inv in H.
    destruct H as (_ & _ & _ & H & _). change (size (tmap fst a)) with (size a) in H.
    change (size (tmap snd a)) with (size a) in H.
    split; [| eauto]. rewrite H. cbn [Tensor_size]. shape_eq.
  - intros H. injection H as <-. split; [| eauto].
    cbn [Tensor_size]. apply size_eta.
Qed.

Lemma Sequential_inv (m1 m2 : tensor R -> result (tensor R)) x y :
  Sequential m1 m2 x = Ok y -> exists z, m1 x = Ok z /\ m2 z = Ok y.
Proof. unfold Sequential. apply bind_ok_inv. Qed.

Lemma forward_stages_shape n_fft hop nout nol ic p x st :
  forward_stages (CascadedNet_init n_fft hop nout nol ic p) x = Ok st ->
  let Fx := Nat.min (n_fft / 2) (dimF (Tensor_size x)) in
  dimC (Tensor_size x) = 2 /\
  (if ic then exists a, x = CplxT a else exists a, x = RealT a) /\
  1 <= Fx / 2 /\ 1 <= dimT (Tensor_size x) /\
  stage_sizes (dimB (Tensor_size x)) (if ic then 4 else 2) nout Fx
              (dimT (Tensor_size x)) st.
Proof.
  intros H Fx. apply forward_stages_inv in H.
  destruct H as (x0 & Hin & Hx & Hl1in & Hh1in & Hl1 & Hh1 & Haux1 & Hl2in
                 & Hh2in & Hl2 & Hh2 & Haux2 & Hf3in & Hf3).
  apply forward_input_shape in Hin. destruct Hin as [S0 Hty].
  cbn [CascadedNet_init is_complex max_bin stg1_low_band_net stg1_high_band_net
       stg2_low_band_net stg2_high_band_net stg3_full_band_net] in *.
  assert (Sx : size (st_x st)
               = (dimB (Tensor_size x),
                  (if ic then 2 * dimC (Tensor_size x) else dimC (Tensor_size x)),
                  Fx, dimT (Tensor_size x))).
  { rewrite Hx, slice_f_size, py_slice_to, S0. reflexivity. }
  assert (Sl1in : size (st_l1_in st)
               = (dimB (Tensor_size x),
                  (if ic then 2 * dimC (Tensor_size x) else dimC (Tensor_size x)),
                  Fx / 2, dimT (Tensor_size x))).
  { rewrite Hl1in, slice_f_size, py_slice_to, Sx. cbn [dimB dimC dimF dimT snd].
    shape_eq. }
  assert (Sh1in : size (st_h1_in st)
               = (dimB (Tensor_size x),
                  (if ic then 2 * dimC (Tensor_size x) else dimC (Tensor_size x)),
                  Fx - Fx / 2, dimT (Tensor_size x))).
  { rewrite Hh1in, slice_f_size, py_slice_from, Sx. cbn [dimB dimC dimF dimT snd].
    shape_eq. }
  apply Sequential_inv in Hl1. destruct Hl1 as (z1 & Hz1 & Hl1).
  apply BaseNet_call_shape in Hz1. destruct Hz1 as (HC & HF & HT & _ & Sz1).
  apply Conv2DBNActiv_shape in Hl1. destruct Hl1 as [_ Sl1].
  rewrite Sz1, Sl1in in Sl1. rewrite Sl1in in HC, HF, HT.
  unfold conv_size, conv_out in Sl1. cbn [dimB dimC dimF dimT] in *.
  apply BaseNet_call_shape in Hh1. destruct Hh1 as (_ & _ & _ & _ & Sh1).
  rewrite Sh1in in Sh1. cbn [dimB dimC dimF dimT] in Sh1.
  rewrite torch_cat2_dim2 in Haux1. apply cat2_dim2_inv in Haux1.
  destruct Haux1 as (_ & _ & _ & Saux1 & _). rewrite Sl1, Sh1 in Saux1.
  cbn [dimB dimC dimF dimT] in Saux1.
  rewrite torch_cat2_dim1 in Hl2in, Hh2in.
  apply cat2_dim1_inv in Hl2in. destruct Hl2in as (_ & _ & _ & Sl2in & _).
  apply cat2_dim1_inv in Hh2in. destruct Hh2in as (_ & _ & _ & Sh2in & _).
  rewrite Sl1in, Sl1 in Sl2in. rewrite Sh1in, Sh1 in Sh2in.
  cbn [dimB dimC dimF dimT] in Sl2in, Sh2in.
  apply Sequential_inv in Hl2. destruct Hl2 as (z2 & Hz2 & Hl2).
  apply BaseNet_call_shape in Hz2. destruct Hz2 as (_ & _ & _ & _ & Sz2).
  apply Conv2DBNActiv_shape in Hl2. destruct Hl2 as [_ Sl2].
  rewrite Sz2, Sl2in in Sl2.
  unfold conv_size, conv_out in Sl2. cbn [dimB dimC dimF dimT] in Sl2.
  apply BaseNet_call_shape in Hh2. destruct Hh2 as (_ & _ & _ & _ & Sh2).
  rewrite Sh2in in Sh2. cbn [dimB dimC dimF dimT] in Sh2.
  rewrite torch_cat2_dim2 in Haux2. apply cat2_dim2_inv in Haux2.
  destruct Haux2 as (_ & _ & _ & Saux2 & _). rewrite Sl2, Sh2 in Saux2.
  cbn [dimB dimC dimF dimT] in Saux2.
  rewrite torch_cat3_dim1 in Hf3in. inv_bind Hf3in.
  apply cat2_dim1_inv in E. destruct E as (_ & _ & _ & Sv & _).
  apply cat2_dim1_inv in Hf3in. destruct Hf3in as (_ & _ & _ & Sf3in & _).
  rewrite Sv, Sx, Saux1, Saux2 in Sf3in. cbn [dimB dimC dimF dimT] in Sf3in.
  apply BaseNet_call_shape in Hf3. destruct Hf3 as (_ & _ & _ & _ & Sf3).
  rewrite Sf3in in Sf3. cbn [dimB dimC dimF dimT] in Sf3.
  assert (Hnin : (if ic then 2 * dimC (Tensor_size x) else dimC (Tensor_size x))
                 = (if ic then 4 else 2)) by exact HC.
  rewrite Hnin in *.
  split; [destruct ic; lia |]. split; [exact Hty |].
  split; [exact HF |]. split; [exact HT |].
  unfold stage_sizes.
  rewrite Sx, Sl1in, Sh1in, Sl1, Sh1, Saux1, Sl2in, Sh2in, Sl2, Sh2, Saux2,
    Sf3in, Sf3.
  repeat split; shape_eq.
Qed.

End ForwardShape2.

(** ** Real-number facts: sigmoid, tanh and the bounded mask *)

Section RealFacts.
Local Open Scope R_scope.

Lemma sigmoid_bounds (x : R) : 0 < sigmoid x < 1.
Proof.
  unfold sigmoid. pose proof (exp_pos (- x)) as He.
  split.
  - apply Rdiv_lt_0_compat; lra.
  - apply Rmult_lt_reg_r with (1 + exp (- x)); [lra |].
    unfold Rdiv. rewrite Rmult_assoc, Rinv_l; lra.
Qed.

Lemma Cabs_nonneg (m : complex) : 0 <= Cabs m.
Proof. unfold Cabs. apply sqrt_pos. Qed.

Lemma bounded_mask_eps_pos : 0 < bounded_mask_eps.
Proof. unfold bounded_mask_eps. lra. Qed.

(** The element [bounded_mask] computes is the spec's formula. *)
Lemma bounded_mask_elem_spec (eps : R) (m : complex) :
  0 < eps -> bounded_mask_elem eps m = bounded_mask_spec eps m.
Proof.
  intros He. pose proof (Cabs_nonneg m) as Hm.
  unfold bounded_mask_elem, bounded_mask_spec, Cdiv, Cmul, RtoC.
  cbn [fst snd]. f_equal; field; lra.
Qed.

End RealFacts.

(** ** Broadcasting, padding and the mask heads *)

Lemma broadcast_dim_same (d : nat) : broadcast_dim d d = Some d.
Proof. unfold broadcast_dim. rewrite Nat.eqb_refl. reflexivity. Qed.

Lemma broadcast_dim_inv (d1 d2 d : nat) :
  broadcast_dim d1 d2 = Some d ->
  (d1 = d2 /\ d = d1) \/ (d1 = 1 /\ d = d2) \/ (d2 = 1 /\ d = d1).
Proof.
  unfold broadcast_dim.
  destruct (Nat.eqb_spec d1 d2); [intros [= <-]; auto |].
  destruct (Nat.eqb_spec d1 1); [intros [= <-]; auto |].
  destruct (Nat.eqb_spec d2 1); [intros [= <-]; auto | discriminate].
Qed.

Lemma broadcast_shape_same (s : shape) : broadcast_shape s s = Some s.
Proof.
  destruct s as [[[B C] F] T]. unfold broadcast_shape.
  rewrite !broadcast_dim_same. reflexivity.
Qed.

Lemma bidx_in_range (d i : nat) : i < d -> bidx d i = i.
Proof. unfold bidx. destruct (Nat.eqb_spec d 1); lia. Qed.

Lemma zip_broadcast_inv {A B C : Type} (g : A -> B -> C) x y z :
  zip_broadcast g x y = Ok z ->
  broadcast_shape (size x) (size y) = Some (size z) /\
  forall b c f t,
    elem z b c f t
    = g (elem x (bidx (dimB (size x)) b) (bidx (dimC (size x)) c)
                (bidx (dimF (size x)) f) (bidx (dimT (size x)) t))
        (elem y (bidx (dimB (size y)) b) (bidx (dimC (size y)) c)
                (bidx (dimF (size y)) f) (bidx (dimT (size y)) t)).
Proof.
  unfold zip_broadcast.
  destruct (broadcast_shape (size x) (size y)) as [s |]; [| discriminate].
  destruct (size x) as [[[B1 C1] F1] T1], (size y) as [[[B2 C2] F2] T2].
  intros [= <-]. split; reflexivity.
Qed.

Lemma zip_broadcast_same {A B C : Type} (g : A -> B -> C) x y :
  size x = size y ->
  exists z, zip_broadcast g x y = Ok z /\ size z = size x /\
    forall b c f t,
      b < dimB (size x) -> c < dimC (size x) ->
      f < dimF (size x) -> t < dimT (size x) ->
      elem z b c f t = g (elem x b c f t) (elem y b c f t).
Proof.
  intros Hs. unfold zip_broadcast. rewrite <- Hs, broadcast_shape_same.
  destruct (size x) as [[[B1 C1] F1] T1] eqn:Sx.
  eexists. split; [reflexivity |]. split; [reflexivity |].
  cbn [elem dimB dimC dimF dimT]. intros b c f t Hb Hc Hf Ht.
  rewrite !bidx_in_range by assumption. reflexivity.
Qed.

Lemma pad_replicate_bottom_inv {A : Type} (k : Z) (x y : tensor A) :
  pad_replicate_bottom k x = Ok y ->
  1 <= dimC (size x) /\ 1 <= dimF (size x) /\ 1 <= dimT (size x) /\
  size y = (dimB (size x), dimC (size x),
            Z.to_nat (Z.of_nat (dimF (size x)) + k), dimT (size x)) /\
  forall b c f t,
    elem y b c f t = elem x b c (Nat.min f (dimF (size x) - 1)) t.
Proof.
  unfold pad_replicate_bottom. destruct (size x) as [[[B C] F] T].
  cbn [dimB dimC dimF dimT].
  destruct ((C =? 0) || (F =? 0) || (T =? 0)) eqn:E; [discriminate |].
  intros [= <-]. cbn [size elem]. repeat split; lia.
Qed.

Lemma pad_replicate_bottom_returns {A : Type} (k : Z) (x : tensor A) :
  1 <= dimC (size x) -> 1 <= dimF (size x) -> 1 <= dimT (size x) ->
  exists y, pad_replicate_bottom k x = Ok y.
Proof.
  unfold pad_replicate_bottom. destruct (size x) as [[[B C] F] T].
  cbn [dimB dimC dimF dimT]. intros HC HF HT.
  destruct ((C =? 0) || (F =? 0) || (T =? 0)) eqn:E; [lia | eauto].
Qed.

Lemma Conv2d_1x1_inv (nin nout : nat) w (x y : tensor R) :
  Conv2d_1x1 nin nout w x = Ok y ->
  dimC (size x) = nin /\
  size y = (dimB (size x), (if nin =? 0 then 0 else nout),
            dimF (size x), dimT (size x)).
Proof.
  unfold Conv2d_1x1. destruct (size x) as [[[B C] F] T].
  cbn [dimB dimC dimF dimT].
  destruct (Nat.eqb_spec C nin); [| discriminate].
  intros [= <-]. split; [assumption | reflexivity].
Qed.

Lemma Conv2d_1x1_returns (nin nout : nat) w (x : tensor R) :
  dimC (size x) = nin -> exists y, Conv2d_1x1 nin nout w x = Ok y.
Proof.
  unfold Conv2d_1x1. destruct (size x) as [[[B C] F] T].
  cbn [dimB dimC dimF dimT]. intros ->. rewrite Nat.eqb_refl. eauto.
Qed.

(** [bounded_mask] never fails and acts element by element. *)
Lemma bounded_mask_elems (mask : tensor complex) (eps : R) :
  exists z, bounded_mask mask eps = Ok z /\ size z = size mask /\
    forall b c f t,
      b < dimB (size mask) -> c < dimC (size mask) ->
      f < dimF (size mask) -> t < dimT (size mask) ->
      elem z b c f t = bounded_mask_elem eps (elem mask b c f t).
Proof.
  unfold bounded_mask.
  destruct (zip_broadcast_same Cmul (tmap RtoC (tmap tanh (tmap Cabs mask))) mask)
    as (num & Hnum & Snum & Enum); [reflexivity |].
  rewrite Hnum. cbn [bind].
  destruct (zip_broadcast_same Cdiv num
              (tmap RtoC (tmap (fun a => (a + eps)%R) (tmap Cabs mask))))
    as (z & Hz & Sz & Ez); [exact Snum |].
  exists z. split; [exact Hz |]. rewrite Sz, Snum.
  split; [reflexivity |].
  intros b c f t Hb Hc Hf Ht.
  rewrite Ez by (rewrite Snum; assumption).
  rewrite Enum by assumption. reflexivity.
Qed.


Section Heads.
Context {L : Layers}.

Lemma forward_inv (self : CascadedNet) (x : Tensor) (my mv : Tensor) :
  forward self x = Ok (my, mv) ->
  exists st hy hv,
    forward_stages self x = Ok st /\
    mask_head self (out_y self) (st_f3 st) = Ok hy /\
    mask_head self (out_v self) (st_f3 st) = Ok hv /\
    pad_mask self hy = Ok my /\ pad_mask self hv = Ok mv.
Proof.
  unfold forward. intros H. repeat inv_bind H. injection H as <- <-.
  eauto 10.
Qed.

(** A head followed by the padding, when the raw mask has [nin] channels. *)
Lemma head_padded (self : CascadedNet) out f3 raw h m :
  out f3 = Ok raw ->
  dimC (size raw) = (if is_complex self then 4 else 2) ->
  mask_head self out f3 = Ok h ->
  pad_mask self h = Ok m ->
  1 <= dimF (size raw) /\ 1 <= dimT (size raw) /\
  dimF (size raw) <= output_bin self ->
  padded_mask (is_complex self) (output_bin self) raw m.
Proof.
  intros Hraw HC Hh Hm (HF & HT & Hob).
  unfold mask_head in Hh. rewrite Hraw in Hh. cbn [bind] in Hh.
  unfold pad_mask, Tensor_pad_replicate_bottom in Hm.
  unfold padded_mask.
  destruct (is_complex self).
  - inv_bind Hh. inv_bind Hh. injection Hh as <-.
    cbn [Tensor_size] in Hm. inv_bind Hm. injection Hm as <-.
    rename v into cm, v0 into bm, v1 into a.
    unfold torch_complex in E.
    destruct (zip_broadcast_same (fun a b : R => (a, b))
                (slice_c None (Some 2%Z) raw) (slice_c (Some 2%Z) None raw))
      as (cm' & Hcm & Scm & Ecm).
    { rewrite !slice_c_size. rewrite (py_slice_to 2), (py_slice_from 2), HC.
      reflexivity. }
    rewrite Hcm in E. injection E as ->.
    rewrite slice_c_size, (py_slice_to 2), HC in Scm. cbn [snd Nat.min] in Scm.
    destruct (bounded_mask_elems cm bounded_mask_eps) as (bm' & Hbm & Sbm & Ebm).
    rewrite Hbm in E0. injection E0 as ->.
    apply pad_replicate_bottom_inv in E1.
    destruct E1 as (_ & _ & _ & Sa & Ea).
    rewrite Sbm, Scm in Sa. cbn [dimB dimC dimF dimT] in Sa.
    split.
    + cbn [Tensor_size]. rewrite Sa. shape_eq.
    + exists a. split; [reflexivity |].
      intros b c f t Hb Hc Ht. rewrite Ea, Ebm, Ecm.
      * unfold slice_c. destruct (size raw) as [[[B C] F] T] eqn:Sraw.
        cbn [dimC] in HC. subst C.
        rewrite (py_slice_to 2), (py_slice_from 2). cbn [Nat.min elem].
        rewrite Sbm, Scm. cbn [dimB dimC dimF dimT]. reflexivity.
      * rewrite slice_c_size. cbn [dimB]. assumption.
      * rewrite slice_c_size, (py_slice_to 2), HC. cbn [dimC snd]. exact Hc.
      * rewrite slice_c_size. cbn [dimF]. rewrite Sbm, Scm. cbn [dimF]. lia.
      * rewrite slice_c_size. cbn [dimT]. assumption.
      * rewrite Scm. cbn [dimB]. assumption.
      * rewrite Scm. cbn [dimC]. exact Hc.
      * rewrite Sbm, Scm. cbn [dimF]. lia.
      * rewrite Scm. cbn [dimT]. assumption.
  - injection Hh as <-. cbn [Tensor_size] in Hm. inv_bind Hm.
    injection Hm as <-. rename v into a.
    apply pad_replicate_bottom_inv in E.
    destruct E as (_ & _ & _ & Sa & Ea).
    change (size (tmap sigmoid raw)) with (size raw) in Sa, Ea.
    split.
    + cbn [Tensor_size]. rewrite Sa, HC. shape_eq.
    + exists a. split; [reflexivity |]. intros b c f t. rewrite Ea. reflexivity.
Qed.

End Heads.

Section ForwardMasks.
Context {L : Layers} {HL : LayersSpec L}.

Lemma mask_head_raw (self : CascadedNet) out f3 h :
  mask_head self out f3 = Ok h -> exists raw, out f3 = Ok raw.
Proof.
  unfold mask_head. destruct (is_complex self); intros H; inv_bind H; eauto.
Qed.

(** A raw mask without channels gives a mask without channels. *)
Lemma mask_head_no_channels (self : CascadedNet) out f3 raw h :
  out f3 = Ok raw -> dimC (size raw) = 0 ->
  mask_head self out f3 = Ok h -> dimC (Tensor_size h) = 0.
Proof.
  intros Hraw HC H. unfold mask_head in H. rewrite Hraw in H.
  cbn [bind] in H. destruct (is_complex self).
  - inv_bind H. inv_bind H. injection H as <-. cbn [Tensor_size].
    destruct (bounded_mask_elems v bounded_mask_eps) as (z & Hz & Sz & _).
    assert (z = v0) by congruence. subst z. rewrite Sz.
    unfold torch_complex in E. apply zip_broadcast_inv in E.
    destruct E as [E _]. rewrite !slice_c_size in E.
    rewrite (py_slice_to 2), (py_slice_from 2), HC in E.
    cbn [snd Nat.min Nat.sub] in E.
    destruct (size v) as [[[Bv Cv] Fv] Tv].
    unfold broadcast_shape in E. rewrite (broadcast_dim_same 0) in E.
    destruct (broadcast_dim (dimB (size raw)) (dimB (size raw))),
      (broadcast_dim (dimF (size raw)) (dimF (size raw))),
      (broadcast_dim (dimT (size raw)) (dimT (size raw))); try discriminate.
    injection E as <- <- <- <-. reflexivity.
  - injection H as <-. cbn [Tensor_size]. exact HC.
Qed.

Lemma pad_mask_channels (self : CascadedNet) (h m : Tensor) :
  pad_mask self h = Ok m -> 1 <= dimC (Tensor_size h).
Proof.
  unfold pad_mask, Tensor_pad_replicate_bottom.
  destruct h as [a | a]; cbn [Tensor_size]; intros H; inv_bind H;
    apply pad_replicate_bottom_inv in E; tauto.
Qed.

(** The masks of [forward] in terms of the raw masks of the two 1x1
    convolutions applied to the stage-3 output. *)
Lemma forward_masks n_fft hop nout nol ic p x my mv :
  forward (CascadedNet_init n_fft hop nout nol ic p) x = Ok (my, mv) ->
  exists st ry rv,
    forward_stages (CascadedNet_init n_fft hop nout nol ic p) x = Ok st /\
    Conv2d_1x1 nout (if ic then 4 else 2) (p_out_y p) (st_f3 st) = Ok ry /\
    Conv2d_1x1 nout (if ic then 4 else 2) (p_out_v p) (st_f3 st) = Ok rv /\
    size ry = (dimB (Tensor_size x), (if ic then 4 else 2),
               Nat.min (n_fft / 2) (dimF (Tensor_size x)),
               dimT (Tensor_size x)) /\
    size rv = size ry /\
    padded_mask ic (n_fft / 2 + 1) ry my /\
    padded_mask ic (n_fft / 2 + 1) rv mv.
Proof.
  intros H. apply forward_inv in H.
  destruct H as (st & hy & hv & Hst & Hhy & Hhv & Hpy & Hpv).
  pose proof Hst as Hsh. apply forward_stages_shape in Hsh.
  cbv zeta in Hsh. destruct Hsh as (_ & _ & HF & HT & Hsz).
  destruct Hsz as (_ & _ & _ & _ & _ & _ & _ & _ & _ & _ & _ & _ & Sf3).
  destruct (mask_head_raw _ _ _ _ Hhy) as [ry Hry].
  destruct (mask_head_raw _ _ _ _ Hhv) as [rv Hrv].
  cbn [CascadedNet_init out_y out_v] in Hry, Hrv.
  pose proof (Conv2d_1x1_inv _ _ _ _ _ Hry) as [_ Sry].
  pose proof (Conv2d_1x1_inv _ _ _ _ _ Hrv) as [_ Srv].
  rewrite Sf3 in Sry, Srv. cbn [dimB dimC dimF dimT] in Sry, Srv.
  assert (Hn : nout <> 0).
  { intros ->. cbn [Nat.eqb] in Sry.
    pose proof (mask_head_no_channels
                  (CascadedNet_init n_fft hop 0 nol ic p) _ _ ry hy Hry
                  ltac:(rewrite Sry; reflexivity) Hhy) as H0.
    apply pad_mask_channels in Hpy. lia. }
  apply Nat.eqb_neq in Hn. rewrite Hn in Sry, Srv.
  exists st, ry, rv.
  split; [exact Hst |]. split; [exact Hry |]. split; [exact Hrv |].
  split; [exact Sry |]. split; [congruence |].
  split.
  - apply (head_padded (CascadedNet_init n_fft hop nout nol ic p)
             _ _ _ hy _ Hry); try assumption.
    + rewrite Sry. reflexivity.
    + rewrite Sry. cbn [dimF dimT CascadedNet_init output_bin]. lia.
  - apply (head_padded (CascadedNet_init n_fft hop nout nol ic p)
             _ _ _ hv _ Hrv); try assumption.
    + rewrite Srv. reflexivity.
    + rewrite Srv. cbn [dimF dimT CascadedNet_init output_bin]. lia.
Qed.

(** [forward] returns only for a base width of at least 1. *)
Lemma forward_nout_pos n_fft hop nout nol ic p x my mv :
  forward (CascadedNet_init n_fft hop nout nol ic p) x = Ok (my, mv) ->
  1 <= nout.
Proof.
  intros H. apply forward_masks in H.
  destruct H as (st & ry & rv & _ & Hry & _ & Sry & _).
  apply Conv2d_1x1_inv in Hry. destruct Hry as [_ Sry'].
  rewrite Sry in Sry'. destruct (Nat.eqb_spec nout 0) as [-> | Hn]; [| lia].
  destruct ic; discriminate.
Qed.

Lemma forward_input_returns (self : CascadedNet) (x : Tensor) :
  (if is_complex self then exists a, x = CplxT a else exists a, x = RealT a) ->
  exists x0, forward_input self x = Ok x0.
Proof.
  unfold forward_input, cat_real_imag.
  destruct (is_complex self); intros [a ->]; [| eauto].
  rewrite torch_cat2_dim1. apply cat2_dim1_returns; reflexivity.
Qed.

(** [forward] reaches the stage-3 output on every input of a matching
    dtype with two channels, at least [max_bin] frequency bins and at
    least one frame, when [max_bin] is a positive multiple of 4 and the
    channel arithmetic of stage 3 closes.  *)
Lemma forward_stages_returns n_fft hop nout nol (ic : bool) p (x : Tensor) :
  (if ic then exists a, x = CplxT a else exists a, x = RealT a) ->
  dimC (Tensor_size x) = 2 ->
  n_fft / 2 <= dimF (Tensor_size x) ->
  1 <= dimT (Tensor_size x) ->
  4 <= n_fft / 2 -> (n_fft / 2) mod 4 = 0 ->
  nout / 4 + nout / 2 = 3 * nout / 4 ->
  exists st, forward_stages (CascadedNet_init n_fft hop nout nol ic p) x = Ok st.
Proof.
  intros Hty HC HF HT HM4 HMmod Hnout.
  set (self := CascadedNet_init n_fft hop nout nol ic p).
  unfold forward_stages.
  destruct (forward_input_returns self x Hty) as [x0 Hx0].
  rewrite Hx0. cbn [bind].
  apply forward_input_shape in Hx0. destruct Hx0 as [S0 _].
  cbn [self CascadedNet_init is_complex] in S0.
  assert (S0' : size x0 = (dimB (Tensor_size x), (if ic then 4 else 2),
                           dimF (Tensor_size x), dimT (Tensor_size x))).
  { rewrite S0. destruct ic; shape_eq. }
  clear S0.
  cbn [self CascadedNet_init max_bin stg1_low_band_net stg1_high_band_net
       stg2_low_band_net stg2_high_band_net stg3_full_band_net].
  set (xt := slice_f None (Some (Z.of_nat (n_fft / 2))) x0).
  assert (Sx : size xt = (dimB (Tensor_size x), (if ic then 4 else 2),
                          n_fft / 2, dimT (Tensor_size x))).
  { unfold xt. rewrite slice_f_size, py_slice_to, S0'. shape_eq. }
  rewrite Sx. cbn [dimF].
  set (l1_in := slice_f None (Some (Z.of_nat (n_fft / 2 / 2))) xt).
  set (h1_in := slice_f (Some (Z.of_nat (n_fft / 2 / 2))) None xt).
  assert (Sl1in : size l1_in = (dimB (Tensor_size x), (if ic then 4 else 2),
                                n_fft / 2 / 2, dimT (Tensor_size x))).
  { unfold l1_in. rewrite slice_f_size, py_slice_to, Sx. shape_eq. }
  assert (Sh1in : size h1_in = (dimB (Tensor_size x), (if ic then 4 else 2),
                                n_fft / 2 / 2, dimT (Tensor_size x))).
  { unfold h1_in. rewrite slice_f_size, py_slice_from, Sx. shape_eq. }
  (* stage 1 *)
  unfold Sequential.
  destruct (BaseNet_call_returns (if ic then 4 else 2) (nout / 2)
              (n_fft / 2 / 2 / 2) nol default_dilations
              (p_stg1_low_band_net_0 p) l1_in) as [z1 Hz1].
  1-4: rewrite Sl1in; cbn [dimC dimF dimT]; unfold ceil_div; lia.
  rewrite Hz1. cbn [bind].
  apply BaseNet_call_shape in Hz1. destruct Hz1 as (_ & _ & _ & _ & Sz1).
  rewrite Sl1in in Sz1. cbn [dimB dimF dimT] in Sz1.
  destruct (Conv2DBNActiv_returns (nout / 2) (nout / 4) 1 1 0
              (p_stg1_low_band_net_1 p) z1) as [l1 Hl1].
  { unfold conv_accepts. rewrite Sz1. cbn [dimC dimF dimT]. lia. }
  rewrite Hl1. cbn [bind].
  apply Conv2DBNActiv_shape in Hl1. destruct Hl1 as [_ Sl1].
  rewrite Sz1 in Sl1. unfold conv_size, conv_out in Sl1.
  cbn [dimB dimC dimF dimT] in Sl1.
  destruct (BaseNet_call_returns (if ic then 4 else 2) (nout / 4)
              (n_fft / 2 / 2 / 2) (nol / 2) default_dilations
              (p_stg1_high_band_net p) h1_in) as [h1 Hh1].
  1-4: rewrite Sh1in; cbn [dimC dimF dimT]; unfold ceil_div; lia.
  rewrite Hh1. cbn [bind].
  apply BaseNet_call_shape in Hh1. destruct Hh1 as (_ & _ & _ & _ & Sh1).
  rewrite Sh1in in Sh1. cbn [dimB dimF dimT] in Sh1.
  rewrite torch_cat2_dim2.
  destruct (cat2_dim2_returns l1 h1) as [aux1 Haux1].
  1-3: rewrite Sl1, Sh1; cbn [dimB dimC dimT]; lia.
  rewrite Haux1. cbn [bind].
  apply cat2_dim2_inv in Haux1. destruct Haux1 as (_ & _ & _ & Saux1 & _).
  rewrite Sl1, Sh1 in Saux1. cbn [dimB dimC dimF dimT] in Saux1.
  (* stage 2 *)
  rewrite !torch_cat2_dim1.
  destruct (cat2_dim1_returns l1_in l1) as [l2_in Hl2in].
  1-3: rewrite Sl1in, Sl1; cbn [dimB dimF dimT]; lia.
  rewrite Hl2in. cbn [bind].
  apply cat2_dim1_inv in Hl2in. destruct Hl2in as (_ & _ & _ & Sl2in & _).
  rewrite Sl1in, Sl1 in Sl2in. cbn [dimB dimC dimF dimT] in Sl2in.
  destruct (cat2_dim1_returns h1_in h1) as [h2_in Hh2in].
  1-3: rewrite Sh1in, Sh1; cbn [dimB dimF dimT]; lia.
  rewrite Hh2in. cbn [bind].
  apply cat2_dim1_inv in Hh2in. destruct Hh2in as (_ & _ & _ & Sh2in & _).
  rewrite Sh1in, Sh1 in Sh2in. cbn [dimB dimC dimF dimT] in Sh2in.
  destruct (BaseNet_call_returns (nout / 4 + (if ic then 4 else 2)) nout
              (n_fft / 2 / 2 / 2) nol default_dilations
              (p_stg2_low_band_net_0 p) l2_in) as [z2 Hz2].
  1-4: rewrite Sl2in; cbn [dimC dimF dimT]; unfold ceil_div; lia.
  rewrite Hz2. cbn [bind].
  apply BaseNet_call_shape in Hz2. destruct Hz2 as (_ & _ & _ & _ & Sz2).
  rewrite Sl2in in Sz2. cbn [dimB dimF dimT] in Sz2.
  destruct (Conv2DBNActiv_returns nout (nout / 2) 1 1 0
              (p_stg2_low_band_net_1 p) z2) as [l2 Hl2].
  { unfold conv_accepts. rewrite Sz2. cbn [dimC dimF dimT]. lia. }
  rewrite Hl2. cbn [bind].
  apply Conv2DBNActiv_shape in Hl2. destruct Hl2 as [_ Sl2].
  rewrite Sz2 in Sl2. unfold conv_size, conv_out in Sl2.
  cbn [dimB dimC dimF dimT] in Sl2.
  destruct (BaseNet_call_returns (nout / 4 + (if ic then 4 else 2)) (nout / 2)
              (n_fft / 2 / 2 / 2) (nol / 2) default_dilations
              (p_stg2_high_band_net p) h2_in) as [h2 Hh2].
  1-4: rewrite Sh2in; cbn [dimC dimF dimT]; unfold ceil_div; lia.
  rewrite Hh2. cbn [bind].
  apply BaseNet_call_shape in Hh2. destruct Hh2 as (_ & _ & _ & _ & Sh2).
  rewrite Sh2in in Sh2. cbn [dimB dimF dimT] in Sh2.
  rewrite torch_cat2_dim2.
  destruct (cat2_dim2_returns l2 h2) as [aux2 Haux2].
  1-3: rewrite Sl2, Sh2; cbn [dimB dimC dimT]; lia.
  rewrite Haux2. cbn [bind].
  apply cat2_dim2_inv in Haux2. destruct Haux2 as (_ & _ & _ & Saux2 & _).
  rewrite Sl2, Sh2 in Saux2. cbn [dimB dimC dimF dimT] in Saux2.
  (* stage 3 *)
  rewrite torch_cat3_dim1.
  destruct (cat2_dim1_returns xt aux1) as [xa Hxa].
  1-3: rewrite Sx, Saux1; cbn [dimB dimF dimT]; lia.
  rewrite Hxa. cbn [bind].
  apply cat2_dim1_inv in Hxa. destruct Hxa as (_ & _ & _ & Sxa & _).
  rewrite Sx, Saux1 in Sxa. cbn [dimB dimC dimF dimT] in Sxa.
  destruct (cat2_dim1_returns xa aux2) as [f3_in Hf3in].
  1-3: rewrite Sxa, Saux2; cbn [dimB dimF dimT]; lia.
  rewrite Hf3in. cbn [bind].
  apply cat2_dim1_inv in Hf3in. destruct Hf3in as (_ & _ & _ & Sf3in & _).
  rewrite Sxa, Saux2 in Sf3in. cbn [dimB dimC dimF dimT] in Sf3in.
  destruct (BaseNet_call_returns (3 * nout / 4 + (if ic then 4 else 2)) nout
              (n_fft / 2 / 2) nol default_dilations
              (p_stg3_full_band_net p) f3_in) as [f3 Hf3].
  1-4: rewrite Sf3in; cbn [dimC dimF dimT]; unfold ceil_div; lia.
  rewrite Hf3. cbn [bind]. eauto.
Qed.

End ForwardMasks.

Section ForwardReturns.
Context {L : Layers} {HL : LayersSpec L}.

Lemma mask_head_returns (self : CascadedNet) out f3 raw :
  out f3 = Ok raw ->
  dimC (size raw) = (if is_complex self then 4 else 2) ->
  exists h, mask_head self out f3 = Ok h /\
    Tensor_size h = (dimB (size raw), 2, dimF (size raw), dimT (size raw)).
Proof.
  intros Hraw HC. unfold mask_head. rewrite Hraw. cbn [bind].
  destruct (is_complex self).
  - unfold torch_complex.
    destruct (zip_broadcast_same (fun a b : R => (a, b))
                (slice_c None (Some 2%Z) raw) (slice_c (Some 2%Z) None raw))
      as (cm & Hcm & Scm & _).
    { rewrite !slice_c_size. rewrite (py_slice_to 2), (py_slice_from 2), HC.
      reflexivity. }
    rewrite Hcm. cbn [bind].
    destruct (bounded_mask_elems cm bounded_mask_eps) as (bm & Hbm & Sbm & _).
    rewrite Hbm. cbn [bind]. eexists. split; [reflexivity |].
    cbn [Tensor_size]. rewrite Sbm, Scm, slice_c_size, (py_slice_to 2), HC.
    reflexivity.
  - eexists. split; [reflexivity |]. cbn [Tensor_size].
    change (size (tmap sigmoid raw)) with (size raw).
    rewrite (size_eta (size raw)) at 1. rewrite HC. reflexivity.
Qed.

Lemma pad_mask_returns (self : CascadedNet) (h : Tensor) :
  1 <= dimC (Tensor_size h) -> 1 <= dimF (Tensor_size h) ->
  1 <= dimT (Tensor_size h) ->
  exists m, pad_mask self h = Ok m.
Proof.
  unfold pad_mask, Tensor_pad_replicate_bottom.
  destruct h as [a | a]; cbn [Tensor_size]; intros HC HF HT;
    destruct (pad_replicate_bottom_returns
                (Z.of_nat (output_bin self) - Z.of_nat (dimF (size a))) a
                HC HF HT) as [y Hy];
    rewrite Hy; cbn [bind]; eauto.
Qed.

(** [forward] returns on every input of a matching dtype with two
    channels, at least [max_bin] frequency bins and at least one frame,
    for a base width of at least 1 (the output convolutions need an input
    with channels). *)
Lemma forward_returns n_fft hop nout nol (ic : bool) p (x : Tensor) :
  (if ic then exists a, x = CplxT a else exists a, x = RealT a) ->
  dimC (Tensor_size x) = 2 ->
  n_fft / 2 <= dimF (Tensor_size x) ->
  1 <= dimT (Tensor_size x) ->
  4 <= n_fft / 2 -> (n_fft / 2) mod 4 = 0 ->
  nout / 4 + nout / 2 = 3 * nout / 4 ->
  1 <= nout ->
  exists my mv, forward (CascadedNet_init n_fft hop nout nol ic p) x = Ok (my, mv).
Proof.
  intros Hty HC HF HT HM4 HMmod Hnout Hn1.
  assert (Hn0 : (nout =? 0) = false) by (apply Nat.eqb_neq; lia).
  destruct (forward_stages_returns n_fft hop nout nol ic p x)
    as [st Hst]; try assumption.
  unfold forward. rewrite Hst. cbn [bind].
  apply forward_stages_shape in Hst. cbv zeta in Hst.
  destruct Hst as (_ & _ & HFx & _ & Hsz).
  destruct Hsz as (_ & _ & _ & _ & _ & _ & _ & _ & _ & _ & _ & _ & Sf3).
  set (self := CascadedNet_init n_fft hop nout nol ic p).
  destruct (Conv2d_1x1_returns nout (if ic then 4 else 2) (p_out_y p) (st_f3 st))
    as [ry Hry]; [rewrite Sf3; reflexivity |].
  destruct (Conv2d_1x1_returns nout (if ic then 4 else 2) (p_out_v p) (st_f3 st))
    as [rv Hrv]; [rewrite Sf3; reflexivity |].
  pose proof (Conv2d_1x1_inv _ _ _ _ _ Hry) as [_ Sry].
  pose proof (Conv2d_1x1_inv _ _ _ _ _ Hrv) as [_ Srv].
  rewrite Sf3, Hn0 in Sry, Srv. cbn [dimB dimF dimT] in Sry, Srv.
  destruct (mask_head_returns self (out_y self) (st_f3 st) ry Hry)
    as (hy & Hhy & Shy); [rewrite Sry; reflexivity |].
  destruct (mask_head_returns self (out_v self) (st_f3 st) rv Hrv)
    as (hv & Hhv & Shv); [rewrite Srv; reflexivity |].
  rewrite Hhy. cbn [bind]. rewrite Hhv. cbn [bind].
  rewrite Sry in Shy. rewrite Srv in Shv. cbn [dimB dimF dimT] in Shy, Shv.
  destruct (pad_mask_returns self hy) as [my Hmy].
  1-3: rewrite Shy; cbn [dimC dimF dimT]; lia.
  destruct (pad_mask_returns self hv) as [mv Hmv].
  1-3: rewrite Shv; cbn [dimC dimF dimT]; lia.
  rewrite Hmy. cbn [bind]. rewrite Hmv. cbn [bind]. eauto.
Qed.

End ForwardReturns.

(** ** The all-zero blocks satisfy the contracts *)

Lemma zero_layers_spec : LayersSpec zero_layers.
Proof.
  constructor; cbn [zero_layers Conv2DBNActiv Encoder Decoder ASPPModule
                    LSTMModule params].
  - intros nin nout k s p w x y.
    destruct (conv_acceptsb nin k s p (size x)) eqn:E; [| discriminate].
    intros [= <-]. split; [| reflexivity].
    unfold conv_acceptsb in E. unfold conv_accepts. lia.
  - intros nin nout k s p w x H.
    assert (E : conv_acceptsb nin k s p (size x) = true).
    { unfold conv_accepts in H. unfold conv_acceptsb. lia. }
    rewrite E. eauto.
  - intros nin nout k s p w x y.
    destruct (encoder_acceptsb nin k s p (size x)); [| discriminate].
    intros [= <-]. reflexivity.
  - intros nin nout k s p w x H.
    assert (E : encoder_acceptsb nin k s p (size x) = true).
    { unfold encoder_accepts in H. unfold encoder_acceptsb. lia. }
    rewrite E. eauto.
  - intros nin nout k s p w h skip y.
    destruct (decoder_acceptsb nin k s p (size h) (size skip)); [| discriminate].
    intros [= <-]. reflexivity.
  - intros nin nout k s p w h skip H.
    assert (E : decoder_acceptsb nin k s p (size h) (size skip) = true).
    { unfold decoder_accepts in H. unfold decoder_acceptsb. lia. }
    rewrite E. eauto.
  - intros nin nout dil dr w x y.
    destruct (aspp_acceptsb nin (size x)); [| discriminate].
    intros [= <-]. reflexivity.
  - intros nin nout dil dr w x H.
    assert (E : aspp_acceptsb nin (size x) = true).
    { unfold aspp_accepts in H. unfold aspp_acceptsb. lia. }
    rewrite E. eauto.
  - intros nin_conv nin_lstm nout_lstm w x y.
    destruct (lstm_acceptsb nin_conv nin_lstm (size x)); [| discriminate].
    intros [= <-]. reflexivity.
  - intros nin_conv nin_lstm nout_lstm w x H.
    assert (E : lstm_acceptsb nin_conv nin_lstm (size x) = true).
    { unfold lstm_accepts in H. unfold lstm_acceptsb. lia. }
    rewrite E. eauto.
Qed.

(** ** Statements about [forward] *)

Lemma pad_mask_inv (self : CascadedNet) (h m : Tensor) :
  pad_mask self h = Ok m ->
  Tensor_size m
  = (dimB (Tensor_size h), dimC (Tensor_size h),
     Z.to_nat (Z.of_nat (dimF (Tensor_size h))
               + (Z.of_nat (output_bin self) - Z.of_nat (dimF (Tensor_size h)))),
     dimT (Tensor_size h)) /\
  forall b c f t,
    Tensor_elem m b c f t
    = Tensor_elem h b c (Nat.min f (dimF (Tensor_size h) - 1)) t.
Proof.
  unfold pad_mask, Tensor_pad_replicate_bottom.
  destruct h as [a | a]; cbn [Tensor_size]; intros H; inv_bind H;
    injection H as <-; apply pad_replicate_bottom_inv in E;
    destruct E as (_ & _ & _ & S & E); cbn [Tensor_size Tensor_elem];
    (split; [exact S | intros b c f t; rewrite E; reflexivity]).
Qed.

Section ForwardClaims.
Context {L : Layers} {HL : LayersSpec L}.

(** C3: on an input with at least [max_bin] frequency bins, each mask of
    [forward] has the channel count of the input (2; the real tensor the
    stages work on has 2 channels in magnitude mode and 4 in complex mode,
    and so has each raw mask) and exactly [output_bin = n_fft // 2 + 1]
    frequency bins whatever the frequency extent of the input; the mask is
    the unpadded mask of [max_bin] rows followed by copies of its last
    row. *)
Theorem forward_mask_shape n_fft hop nout nol ic p x my mv :
  forward (CascadedNet_init n_fft hop nout nol ic p) x = Ok (my, mv) ->
  n_fft / 2 <= dimF (Tensor_size x) ->
  let self := CascadedNet_init n_fft hop nout nol ic p in
  let B := dimB (Tensor_size x) in
  let T := dimT (Tensor_size x) in
  output_bin self = n_fft / 2 + 1 /\
  dimC (Tensor_size x) = 2 /\
  Tensor_size my = (B, dimC (Tensor_size x), output_bin self, T) /\
  Tensor_size mv = (B, dimC (Tensor_size x), output_bin self, T) /\
  exists st ry rv hy hv,
    forward_stages self x = Ok st /\
    dimC (size (st_x st)) = (if ic then 4 else 2) /\
    out_y self (st_f3 st) = Ok ry /\ out_v self (st_f3 st) = Ok rv /\
    dimC (size ry) = dimC (size (st_x st)) /\
    dimC (size rv) = dimC (size (st_x st)) /\
    mask_head self (out_y self) (st_f3 st) = Ok hy /\
    mask_head self (out_v self) (st_f3 st) = Ok hv /\
    Tensor_size hy = (B, 2, max_bin self, T) /\
    Tensor_size hv = (B, 2, max_bin self, T) /\
    forall b c f t,
      Tensor_elem my b c f t
      = Tensor_elem hy b c (Nat.min f (max_bin self - 1)) t /\
      Tensor_elem mv b c f t
      = Tensor_elem hv b c (Nat.min f (max_bin self - 1)) t.
Proof.
  intros H HF self B T. subst self B T.
  assert (Hn0 : (nout =? 0) = false).
  { apply Nat.eqb_neq. apply forward_nout_pos in H. lia. }
  set (self := CascadedNet_init n_fft hop nout nol ic p) in *.
  apply forward_inv in H.
  destruct H as (st & hy & hv & Hst & Hhy & Hhv & Hpy & Hpv).
  pose proof Hst as Hsh. apply forward_stages_shape in Hsh. cbv zeta in Hsh.
  destruct Hsh as (HC & _ & HFx & HT & Hsz).
  rewrite (Nat.min_l _ _ HF) in HFx, Hsz.
  destruct Hsz as (Sx & _ & _ & _ & _ & _ & _ & _ & _ & _ & _ & _ & Sf3).
  destruct (mask_head_raw _ _ _ _ Hhy) as [ry Hry].
  destruct (mask_head_raw _ _ _ _ Hhv) as [rv Hrv].
  pose proof Hry as Sry. pose proof Hrv as Srv.
  unfold self in Sry, Srv. cbn [CascadedNet_init out_y out_v] in Sry, Srv.
  apply Conv2d_1x1_inv in Sry, Srv.
  destruct Sry as [_ Sry]. destruct Srv as [_ Srv].
  rewrite Sf3, Hn0 in Sry, Srv. cbn [dimB dimF dimT] in Sry, Srv.
  destruct (mask_head_returns self _ _ _ Hry) as (hy' & Hhy' & Shy).
  { rewrite Sry. reflexivity. }
  destruct (mask_head_returns self _ _ _ Hrv) as (hv' & Hhv' & Shv).
  { rewrite Srv. reflexivity. }
  assert (hy' = hy) by congruence. assert (hv' = hv) by congruence.
  subst hy' hv'.
  rewrite Sry in Shy. rewrite Srv in Shv. cbn [dimB dimF dimT] in Shy, Shv.
  apply pad_mask_inv in Hpy, Hpv.
  destruct Hpy as [Smy Emy]. destruct Hpv as [Smv Emv].
  rewrite Shy in Smy, Emy. rewrite Shv in Smv, Emv.
  unfold self in Smy, Smv. cbn [dimB dimC dimF dimT CascadedNet_init output_bin] in Smy, Smv, Emy, Emv.
  split; [reflexivity |]. split; [exact HC |].
  split; [rewrite Smy, HC; unfold self; cbn [CascadedNet_init output_bin]; shape_eq |].
  split; [rewrite Smv, HC; unfold self; cbn [CascadedNet_init output_bin]; shape_eq |].
  exists st, ry, rv, hy, hv.
  split; [exact Hst |].
  split; [rewrite Sx; reflexivity |].
  split; [exact Hry |]. split; [exact Hrv |].
  split; [rewrite Sry, Sx; reflexivity |].
  split; [rewrite Srv, Sx; reflexivity |].
  split; [exact Hhy |]. split; [exact Hhv |].
  split; [exact Shy |]. split; [exact Shv |].
  intros b c f t. unfold self. cbn [CascadedNet_init max_bin]. split; [apply Emy | apply Emv].
Qed.

End ForwardClaims.

Lemma forward_mask_shape_witness :
  exists my mv,
    forward net8 (ramp 7 3) = Ok (my, mv) /\
    Tensor_size my = (1, 2, 5, 3) /\ Tensor_size mv = (1, 2, 5, 3).
Proof.
  destruct (forward net8 (ramp 7 3)) as [[my mv] | e] eqn:E;
    [| vm_compute in E; discriminate].
  exists my, mv. split; [reflexivity |].
  pose proof (@forward_mask_shape zero_layers zero_layers_spec
                8 2 32 128 false _ (ramp 7 3) my mv E) as H.
  cbv zeta in H. destruct H as (_ & _ & Hy & Hv & _).
  - cbn. lia.
  - split; [exact Hy | exact Hv].
Defined.

Section HeadClaims.
Context {L : Layers} {HL : LayersSpec L}.

(** C2: in complex mode each raw mask of the 1x1 output convolution has 4
    channels, is read with channels 0 and 1 as real parts and channels 2
    and 3 as the matching imaginary parts, and every element [m] of the
    complex mask becomes [m * tanh(|m|) / (|m| + eps)] with [eps = 1e-8];
    in magnitude mode every element of a raw mask goes through the
    sigmoid.  (Rows at and above the frequency extent of the raw mask are
    the padding.) *)
Theorem forward_mask_values n_fft hop nout nol ic p x my mv :
  forward (CascadedNet_init n_fft hop nout nol ic p) x = Ok (my, mv) ->
  let self := CascadedNet_init n_fft hop nout nol ic p in
  bounded_mask_eps = 1e-8%R /\
  exists st ry rv,
    forward_stages self x = Ok st /\
    out_y self (st_f3 st) = Ok ry /\ out_v self (st_f3 st) = Ok rv /\
    out_y self = Conv2d_1x1 nout (if ic then 4 else 2) (p_out_y p) /\
    out_v self = Conv2d_1x1 nout (if ic then 4 else 2) (p_out_v p) /\
    size rv = size ry /\
    if ic then
      dimC (size ry) = 4 /\
      exists ay av, my = CplxT ay /\ mv = CplxT av /\
        forall b c f t,
          b < dimB (size ry) -> c < 2 -> f < dimF (size ry) ->
          t < dimT (size ry) ->
          elem ay b c f t
          = bounded_mask_spec 1e-8 (elem ry b c f t, elem ry b (c + 2) f t) /\
          elem av b c f t
          = bounded_mask_spec 1e-8 (elem rv b c f t, elem rv b (c + 2) f t)
    else
      dimC (size ry) = 2 /\
      exists ay av, my = RealT ay /\ mv = RealT av /\
        forall b c f t,
          f < dimF (size ry) ->
          elem ay b c f t = sigmoid (elem ry b c f t) /\
          elem av b c f t = sigmoid (elem rv b c f t).
Proof.
  intros H self. subst self.
  apply forward_masks in H.
  destruct H as (st & ry & rv & Hst & Hry & Hrv & Sry & Srv & Py & Pv).
  split; [reflexivity |].
  exists st, ry, rv.
  split; [exact Hst |]. split; [exact Hry |]. split; [exact Hrv |].
  split; [reflexivity |]. split; [reflexivity |]. split; [exact Srv |].
  unfold padded_mask in Py, Pv. rewrite Srv in Pv.
  destruct Py as [_ Py]. destruct Pv as [_ Pv].
  destruct ic.
  - destruct Py as (ay & -> & Ey). destruct Pv as (av & -> & Ev).
    split; [rewrite Sry; reflexivity |].
    exists ay, av. split; [reflexivity |]. split; [reflexivity |].
    intros b c f t Hb Hc Hf Ht.
    rewrite (Ey b c f t Hb Hc Ht), (Ev b c f t Hb Hc Ht).
    rewrite !bounded_mask_elem_spec by apply bounded_mask_eps_pos.
    replace (Nat.min f (dimF (size ry) - 1)) with f by lia.
    replace (2 + c) with (c + 2) by lia.
    split; reflexivity.
  - destruct Py as (ay & -> & Ey). destruct Pv as (av & -> & Ev).
    split; [rewrite Sry; reflexivity |].
    exists ay, av. split; [reflexivity |]. split; [reflexivity |].
    intros b c f t Hf. rewrite Ey, Ev.
    replace (Nat.min f (dimF (size ry) - 1)) with f by lia.
    split; reflexivity.
Qed.

End HeadClaims.

(** ** Trimming and the product with the input *)

Lemma trim_size (self : CascadedNet) (t : Tensor) :
  0 < offset self ->
  Tensor_size (trim self t)
  = (dimB (Tensor_size t), dimC (Tensor_size t), dimF (Tensor_size t),
     dimT (Tensor_size t) - offset self
     - Nat.min (offset self) (dimT (Tensor_size t))).
Proof.
  intros Ho. unfold trim, Tensor_slice_t.
  destruct t as [a | a]; cbn [Tensor_size];
    rewrite slice_t_size, (py_slice_trim _ _ Ho); reflexivity.
Qed.

Lemma trim_elem (self : CascadedNet) (x : Tensor) b c f t :
  0 < offset self ->
  Tensor_elem (trim self x) b c f t
  = Tensor_elem x b c f (Nat.min (offset self) (dimT (Tensor_size x)) + t).
Proof.
  intros Ho. unfold trim, Tensor_slice_t.
  destruct x as [a | a]; cbn [Tensor_size Tensor_elem];
    rewrite slice_t_elem, (py_slice_trim _ _ Ho); reflexivity.
Qed.

Lemma Tensor_mul_inv (x y z : Tensor) :
  Tensor_mul x y = Ok z ->
  broadcast_shape (Tensor_size x) (Tensor_size y) = Some (Tensor_size z).
Proof.
  unfold Tensor_mul.
  destruct x as [a | a], y as [b | b]; intros H; inv_bind H;
    injection H as <-; apply zip_broadcast_inv in E; destruct E as [E _];
    exact E.
Qed.

Lemma Tensor_mul_err (x y : Tensor) :
  broadcast_shape (Tensor_size x) (Tensor_size y) = None ->
  Tensor_mul x y = Err RuntimeError.
Proof.
  unfold Tensor_mul, zip_broadcast.
  destruct x as [a | a], y as [b | b]; cbn [Tensor_size tmap size];
    intros ->; reflexivity.
Qed.

Lemma Tensor_mul_returns (x y : Tensor) :
  Tensor_size x = Tensor_size y ->
  exists z, Tensor_mul x y = Ok z /\ Tensor_size z = Tensor_size x.
Proof.
  unfold Tensor_mul.
  destruct x as [a | a], y as [b | b]; cbn [Tensor_size]; intros Hs.
  - destruct (zip_broadcast_same Rmult a b Hs) as (z & Hz & Sz & _).
    rewrite Hz. cbn [bind]. eauto.
  - destruct (zip_broadcast_same Cmul (tmap RtoC a) b Hs) as (z & Hz & Sz & _).
    rewrite Hz. cbn [bind]. eauto.
  - destruct (zip_broadcast_same Cmul a (tmap RtoC b) Hs) as (z & Hz & Sz & _).
    rewrite Hz. cbn [bind]. eauto.
  - destruct (zip_broadcast_same Cmul a b Hs) as (z & Hz & Sz & _).
    rewrite Hz. cbn [bind]. eauto.
Qed.

Lemma broadcast_shape_T (s1 s2 s : shape) :
  broadcast_shape s1 s2 = Some s -> dimT s1 = dimT s2 -> dimT s = dimT s1.
Proof.
  destruct s1 as [[[B1 C1] F1] T1], s2 as [[[B2 C2] F2] T2].
  unfold broadcast_shape. cbn [dimT]. intros H ->.
  rewrite (broadcast_dim_same T2) in H.
  destruct (broadcast_dim B1 B2), (broadcast_dim C1 C2), (broadcast_dim F1 F2);
    try discriminate.
  injection H as <-. reflexivity.
Qed.

Lemma broadcast_shape_F (s1 s2 s : shape) :
  broadcast_shape s1 s2 = Some s ->
  dimF s1 = dimF s2 \/ dimF s1 = 1 \/ dimF s2 = 1.
Proof.
  destruct s1 as [[[B1 C1] F1] T1], s2 as [[[B2 C2] F2] T2].
  unfold broadcast_shape. cbn [dimF]. intros H.
  destruct (broadcast_dim B1 B2), (broadcast_dim C1 C2); try discriminate.
  destruct (broadcast_dim F1 F2) as [F |] eqn:EF; [| discriminate].
  apply broadcast_dim_inv in EF. tauto.
Qed.

Lemma broadcast_shape_F_none (s1 s2 : shape) :
  dimF s1 <> dimF s2 -> dimF s1 <> 1 -> dimF s2 <> 1 ->
  broadcast_shape s1 s2 = None.
Proof.
  intros H1 H2 H3.
  destruct (broadcast_shape s1 s2) as [s |] eqn:E; [| reflexivity].
  apply broadcast_shape_F in E. tauto.
Qed.

Section PredictFacts.
Context {L : Layers}.

Lemma predict_mask_of_forward (self : CascadedNet) x my mv :
  forward self x = Ok (my, mv) -> 0 < offset self ->
  predict_mask self x
  = if (0 <? dimT (Tensor_size (trim self my)))
       && (0 <? dimT (Tensor_size (trim self mv)))
    then Ok (trim self my, trim self mv) else Err AssertionError.
Proof.
  intros H Ho. unfold predict_mask. rewrite H. cbn [bind].
  destruct (Nat.ltb_spec 0 (offset self)); [reflexivity | lia].
Qed.

Lemma predict_of_forward (self : CascadedNet) x my mv gy gv :
  forward self x = Ok (my, mv) -> 0 < offset self ->
  Tensor_mul x my = Ok gy -> Tensor_mul x mv = Ok gv ->
  predict self x
  = if (0 <? dimT (Tensor_size (trim self gy)))
       && (0 <? dimT (Tensor_size (trim self gv)))
    then Ok (trim self gy, trim self gv) else Err AssertionError.
Proof.
  intros H Ho Hy Hv. unfold predict. rewrite H. cbn [bind].
  rewrite Hy. cbn [bind]. rewrite Hv. cbn [bind].
  destruct (Nat.ltb_spec 0 (offset self)); [reflexivity | lia].
Qed.

Lemma predict_mask_ok_inv (self : CascadedNet) x r :
  predict_mask self x = Ok r -> exists m, forward self x = Ok m.
Proof. unfold predict_mask. intros H. inv_bind H. eauto. Qed.

Lemma predict_ok_inv (self : CascadedNet) x r :
  predict self x = Ok r ->
  exists my mv gy gv,
    forward self x = Ok (my, mv) /\
    Tensor_mul x my = Ok gy /\ Tensor_mul x mv = Ok gv.
Proof.
  unfold predict. intros H. inv_bind H. destruct v as [my mv].
  inv_bind H. inv_bind H. eauto 10.
Qed.

End PredictFacts.

Section PredictClaims.
Context {L : Layers} {HL : LayersSpec L}.

(** Sizes and dtypes around a successful [forward]. *)
Lemma forward_sizes n_fft hop nout nol ic p x my mv :
  forward (CascadedNet_init n_fft hop nout nol ic p) x = Ok (my, mv) ->
  dimC (Tensor_size x) = 2 /\ 2 <= n_fft / 2 /\ 2 <= dimF (Tensor_size x) /\
  1 <= dimT (Tensor_size x) /\
  Tensor_size my
  = (dimB (Tensor_size x), 2, n_fft / 2 + 1, dimT (Tensor_size x)) /\
  Tensor_size mv
  = (dimB (Tensor_size x), 2, n_fft / 2 + 1, dimT (Tensor_size x)).
Proof.
  intros H. apply forward_masks in H.
  destruct H as (st & ry & rv & Hst & Hry & Hrv & Sry & Srv & Py & Pv).
  apply forward_stages_shape in Hst. cbv zeta in Hst.
  destruct Hst as (HC & _ & HFx & HT & _).
  destruct Py as [Smy _]. destruct Pv as [Smv _].
  rewrite Srv in Smv. rewrite Sry in Smy, Smv.
  cbn [dimB dimT] in Smy, Smv.
  repeat split; try assumption; lia.
Qed.


(** C10: [forward] returns on every input with at least [max_bin]
    frequency bins (of the matching dtype, with two channels and at least
    one frame, for the networks whose shapes close: [max_bin] a positive
    multiple of 4, a base width [nout] of at least 1 with
    [nout // 4 + nout // 2 = 3 * nout // 4]), but [predict] returns only
    when the input has exactly [output_bin] bins: otherwise the product of
    the input with the mask raises the shape error. *)
Theorem predict_needs_output_bin n_fft hop nout nol (ic : bool) p (x : Tensor) :
  let self := CascadedNet_init n_fft hop nout nol ic p in
  ((if ic then exists a, x = CplxT a else exists a, x = RealT a) ->
   dimC (Tensor_size x) = 2 -> 1 <= dimT (Tensor_size x) ->
   4 <= max_bin self -> max_bin self mod 4 = 0 ->
   1 <= nout -> nout / 4 + nout / 2 = 3 * nout / 4 ->
   max_bin self <= dimF (Tensor_size x) ->
   exists m, forward self x = Ok m) /\
  (dimF (Tensor_size x) <> output_bin self ->
   (forall m, forward self x = Ok m -> predict self x = Err RuntimeError) /\
   (forall r, predict self x <> Ok r)).
Proof.
  intros self. subst self.
  set (self := CascadedNet_init n_fft hop nout nol ic p) in *.
  split.
  - intros Hty HC HT HM HM4 Hn1 Hn HF.
    destruct (forward_returns n_fft hop nout nol ic p x) as (my & mv & H);
      try assumption.
    exists (my, mv). exact H.
  - intros HF.
    assert (Hrt : forall m, forward self x = Ok m ->
                            predict self x = Err RuntimeError).
    { intros [my mv] Hf. pose proof Hf as Hs. apply forward_sizes in Hs.
      destruct Hs as (_ & HM & HFx & _ & Smy & _).
      unfold predict. rewrite Hf. cbn [bind].
      rewrite (Tensor_mul_err x my); [reflexivity |].
      apply broadcast_shape_F_none; rewrite ?Smy; cbn [dimF];
        cbn [self CascadedNet_init output_bin] in HF; lia. }
    split; [exact Hrt |].
    intros r Hr.
    destruct (predict_ok_inv _ _ _ Hr) as (my & mv & gy & gv & Hf & _).
    rewrite (Hrt _ Hf) in Hr. discriminate.
Qed.

(** C4: with [n_fft = 2048] the constructor sets [max_bin = 1024],
    [output_bin = 1025], [nin_lstm = 512] and [offset = 64]; on a
    magnitude input of shape (1, 2, 1025, 256), [forward] returns two masks
    of shape (1, 2, 1025, 256) and [predict_mask] returns two tensors of
    shape (1, 2, 1025, 128). *)
Theorem scenario_n_fft_2048 hop p (a : tensor R) :
  size a = (1, 2, 1025, 256) ->
  let self := CascadedNet_init 2048 hop 32 128 false p in
  max_bin self = 1024 /\ output_bin self = 1025 /\ nin_lstm self = 512 /\
  offset self = 64 /\
  (exists my mv,
     forward self (RealT a) = Ok (my, mv) /\
     Tensor_size my = (1, 2, 1025, 256) /\
     Tensor_size mv = (1, 2, 1025, 256)) /\
  (exists my mv,
     predict_mask self (RealT a) = Ok (my, mv) /\
     Tensor_size my = (1, 2, 1025, 128) /\
     Tensor_size mv = (1, 2, 1025, 128)).
Proof.
  intros Sa self. subst self.
  set (self := CascadedNet_init 2048 hop 32 128 false p).
  assert (H1024 : 2048 / 2 = 1024) by (vm_compute; reflexivity).
  assert (Hmb : max_bin self = 1024) by exact H1024.
  assert (Hob : output_bin self = 1025).
  { cbn [self CascadedNet_init output_bin]. rewrite H1024. reflexivity. }
  assert (Hnl : nin_lstm self = 512).
  { cbn [self CascadedNet_init nin_lstm]. vm_compute. reflexivity. }
  destruct (forward_returns 2048 hop 32 128 false p (RealT a))
    as (my & mv & Hf).
  { eauto. }
  { cbn [Tensor_size]. rewrite Sa. reflexivity. }
  { cbn [Tensor_size]. rewrite Sa, H1024. cbn [dimF]. lia. }
  { cbn [Tensor_size]. rewrite Sa. cbn [dimT]. lia. }
  { rewrite H1024. lia. }
  { vm_compute. reflexivity. }
  { vm_compute. reflexivity. }
  { lia. }
  fold self in Hf.
  pose proof Hf as Hs. apply forward_sizes in Hs.
  destruct Hs as (_ & _ & _ & _ & Smy & Smv).
  cbn [Tensor_size] in Smy, Smv. rewrite Sa, H1024 in Smy, Smv.
  cbn [dimB dimT] in Smy, Smv.
  change (1024 + 1) with 1025 in Smy, Smv.
  repeat split; try assumption; try reflexivity.
  - exists my, mv. repeat split; assumption.
  - exists (trim self my), (trim self mv).
    assert (Ho : 0 < offset self) by (cbn [self CascadedNet_init offset]; lia).
    rewrite (predict_mask_of_forward _ _ _ _ Hf Ho).
    rewrite !(trim_size _ _ Ho). rewrite Smy, Smv.
    cbn [dimB dimC dimF dimT self CascadedNet_init offset].
    assert (H128 : 256 - 64 - Nat.min 64 256 = 128) by (vm_compute; reflexivity).
    rewrite H128. repeat split; reflexivity.
Qed.

End PredictClaims.

Section CascadeClaims.
Context {L : Layers} {HL : LayersSpec L}.

(** C5: the truncated spectrogram of [F] frequency bins is split at
    [F // 2]: the low band is its first [F // 2] bins, the high band the
    remaining ones (one more than the low band when [F] is odd); with
    [n_fft = 2048] ([max_bin = 1024]) on an input of at least [max_bin]
    bins the low band is the first 512 bins, the high band the other 512,
    and [aux1], the stage-1 outputs joined along the frequency axis, has
    exactly 1024 bins. *)
Theorem band_split n_fft hop nout nol ic p x st :
  let self := CascadedNet_init n_fft hop nout nol ic p in
  forward_stages self x = Ok st ->
  let F := dimF (size (st_x st)) in
  st_l1_in st = slice_f None (Some (Z.of_nat (F / 2))) (st_x st) /\
  st_h1_in st = slice_f (Some (Z.of_nat (F / 2))) None (st_x st) /\
  dimF (size (st_l1_in st)) = F / 2 /\
  dimF (size (st_h1_in st)) = F - F / 2 /\
  dimF (size (st_h1_in st)) = dimF (size (st_l1_in st)) + F mod 2 /\
  (forall b c f t, elem (st_l1_in st) b c f t = elem (st_x st) b c f t) /\
  (forall b c f t, elem (st_h1_in st) b c f t = elem (st_x st) b c (F / 2 + f) t) /\
  torch_cat [st_l1 st; st_h1 st] 2 = Ok (st_aux1 st) /\
  dimF (size (st_l1 st)) = dimF (size (st_l1_in st)) /\
  dimF (size (st_h1 st)) = dimF (size (st_h1_in st)) /\
  dimF (size (st_aux1 st)) = F /\
  (n_fft = 2048 -> max_bin self <= dimF (Tensor_size x) ->
   max_bin self = 1024 /\ F = 1024 /\
   dimF (size (st_l1_in st)) = 512 /\ dimF (size (st_h1_in st)) = 512 /\
   dimF (size (st_aux1 st)) = 1024).
Proof.
  intros self Hst F. subst self F.
  pose proof Hst as Hinv. apply forward_stages_inv in Hinv.
  destruct Hinv as (x0 & _ & _ & Hl1in & Hh1in & _ & _ & Haux1 & _).
  pose proof Hst as Hsh. apply forward_stages_shape in Hsh. cbv zeta in Hsh.
  destruct Hsh as (_ & _ & _ & _ & Hsz).
  destruct Hsz as (Sx & Sl1in & Sh1in & Sl1 & Sh1 & Saux1 & _).
  split; [exact Hl1in |]. split; [exact Hh1in |].
  rewrite Sx, Sl1in, Sh1in, Sl1, Sh1, Saux1. cbn [dimF].
  split; [reflexivity |]. split; [reflexivity |]. split; [lia |].
  split.
  { intros b c f t. rewrite Hl1in, slice_f_elem, py_slice_to. reflexivity. }
  split.
  { intros b c f t. rewrite Hh1in, slice_f_elem, py_slice_from, Sx.
    cbn [fst dimF]. f_equal. lia. }
  split; [exact Haux1 |].
  split; [reflexivity |]. split; [reflexivity |]. split; [reflexivity |].
  intros -> HF. cbn [CascadedNet_init max_bin] in *.
  assert (H1024 : 2048 / 2 = 1024) by (vm_compute; reflexivity).
  rewrite H1024 in *.
  replace (Nat.min 1024 (dimF (Tensor_size x))) with 1024 by lia.
  assert (H512 : 1024 / 2 = 512) by (vm_compute; reflexivity).
  rewrite H512.
  assert (H512' : 1024 - 512 = 512) by (vm_compute; reflexivity).
  rewrite H512'. repeat split; reflexivity.
Qed.

(** C6, as the code has it: each stage-2 band input is the channel-axis
    concatenation of the band's own input with its stage-1 output; the
    stage-3 input is the channel-axis concatenation of the whole truncated
    input, [aux1] and [aux2], and goes to one full-band BaseNet built with
    [nin_lstm = max_bin // 2]; the channel count of the input never
    decreases from stage to stage, and grows strictly for a base width
    [nout] of at least 4 (as the default 32). *)
Theorem cascade_context n_fft hop nout nol ic p x st :
  let self := CascadedNet_init n_fft hop nout nol ic p in
  forward_stages self x = Ok st ->
  let nin := if ic then 4 else 2 in
  torch_cat [st_l1_in st; st_l1 st] 1 = Ok (st_l2_in st) /\
  torch_cat [st_h1_in st; st_h1 st] 1 = Ok (st_h2_in st) /\
  stg2_low_band_net self (st_l2_in st) = Ok (st_l2 st) /\
  BaseNet_call (stg2_high_band_net self) (st_h2_in st) = Ok (st_h2 st) /\
  torch_cat [st_x st; st_aux1 st; st_aux2 st] 1 = Ok (st_f3_in st) /\
  BaseNet_call (stg3_full_band_net self) (st_f3_in st) = Ok (st_f3 st) /\
  stg3_full_band_net self
  = BaseNet_init (3 * nout / 4 + nin) nout (max_bin self / 2) nol
      default_dilations (p_stg3_full_band_net p) /\
  nin_lstm self = max_bin self / 2 /\
  (forall b c f t,
     elem (st_l2_in st) b c f t
     = (if c <? nin then elem (st_l1_in st) b c f t
        else elem (st_l1 st) b (c - nin) f t) /\
     elem (st_h2_in st) b c f t
     = (if c <? nin then elem (st_h1_in st) b c f t
        else elem (st_h1 st) b (c - nin) f t) /\
     elem (st_f3_in st) b c f t
     = (if c <? nin then elem (st_x st) b c f t
        else if c <? nin + nout / 4 then elem (st_aux1 st) b (c - nin) f t
        else elem (st_aux2 st) b (c - nin - nout / 4) f t)) /\
  dimC (size (st_l1_in st)) = nin /\
  dimC (size (st_l2_in st)) = dimC (size (st_l1_in st)) + dimC (size (st_l1 st)) /\
  dimC (size (st_h2_in st)) = dimC (size (st_h1_in st)) + dimC (size (st_h1 st)) /\
  dimC (size (st_f3_in st))
  = dimC (size (st_x st)) + dimC (size (st_aux1 st)) + dimC (size (st_aux2 st)) /\
  dimC (size (st_l1_in st)) <= dimC (size (st_l2_in st))
                            <= dimC (size (st_f3_in st)) /\
  (4 <= nout ->
   dimC (size (st_l1_in st)) < dimC (size (st_l2_in st))
                             < dimC (size (st_f3_in st))).
Proof.
  intros self Hst nin. subst self nin.
  pose proof Hst as Hinv. apply forward_stages_inv in Hinv.
  destruct Hinv as (x0 & _ & _ & _ & _ & _ & _ & _ & Hl2in & Hh2in & Hl2
                    & Hh2 & _ & Hf3in & Hf3).
  pose proof Hst as Hsh. apply forward_stages_shape in Hsh. cbv zeta in Hsh.
  destruct Hsh as (_ & _ & _ & _ & Hsz).
  destruct Hsz as (Sx & Sl1in & Sh1in & Sl1 & Sh1 & Saux1 & Sl2in & Sh2in
                   & _ & _ & Saux2 & Sf3in & _).
  split; [exact Hl2in |]. split; [exact Hh2in |]. split; [exact Hl2 |].
  split; [exact Hh2 |]. split; [exact Hf3in |]. split; [exact Hf3 |].
  split; [reflexivity |]. split; [reflexivity |].
  split.
  { intros b c f t.
    rewrite torch_cat2_dim1 in Hl2in, Hh2in.
    apply cat2_dim1_inv in Hl2in, Hh2in.
    destruct Hl2in as (_ & _ & _ & _ & El2in).
    destruct Hh2in as (_ & _ & _ & _ & Eh2in).
    rewrite torch_cat3_dim1 in Hf3in. inv_bind Hf3in.
    apply cat2_dim1_inv in E, Hf3in.
    destruct E as (_ & _ & _ & Sv & Ev).
    destruct Hf3in as (_ & _ & _ & _ & Ef3in).
    rewrite El2in, Eh2in, Ef3in, Ev, Sv, Sl1in, Sh1in, Sx, Saux1.
    cbn [dimC].
    split; [reflexivity |]. split; [reflexivity |].
    destruct (Nat.ltb_spec c ((if ic then 4 else 2) + nout / 4)).
    - reflexivity.
    - destruct (Nat.ltb_spec c (if ic then 4 else 2)); [lia |].
      f_equal. lia. }
  rewrite Sx, Sl1in, Sh1in, Sl1, Sh1, Saux1, Sl2in, Sh2in, Saux2, Sf3in.
  cbn [dimC]. repeat split; lia.
Qed.

End CascadeClaims.

Section Inert.
Context {L : Layers}.

(** C9: [hop_length] is stored by the constructor and read by no
    computation: two networks that differ only in [hop_length] give the
    same results from [forward], [predict_mask] and [predict] on every
    input. *)
Theorem hop_length_inert n_fft h1 h2 nout nol ic p x :
  hop_length (CascadedNet_init n_fft h1 nout nol ic p) = h1 /\
  forward (CascadedNet_init n_fft h1 nout nol ic p) x
  = forward (CascadedNet_init n_fft h2 nout nol ic p) x /\
  predict_mask (CascadedNet_init n_fft h1 nout nol ic p) x
  = predict_mask (CascadedNet_init n_fft h2 nout nol ic p) x /\
  predict (CascadedNet_init n_fft h1 nout nol ic p) x
  = predict (CascadedNet_init n_fft h2 nout nol ic p) x.
Proof. repeat split; reflexivity. Qed.

End Inert.

(** ** Trimming commutes with the elementwise product *)

Lemma py_slice_in_range (start stop : option Z) (len : nat) :
  snd (py_slice start stop len) = 0 \/
  fst (py_slice start stop len) + snd (py_slice start stop len) <= len.
Proof.
  unfold py_slice, py_index. cbn [fst snd].
  destruct start as [i |], stop as [j |];
    repeat match goal with
           | |- context [(?a <? 0)%Z] => destruct (Z.ltb_spec a 0)
           end; lia.
Qed.

Lemma bidx_slice (T lo n t : nat) :
  t < n -> lo + n <= T -> bidx T (lo + t) = lo + bidx n t.
Proof.
  intros Ht Hn. unfold bidx.
  destruct (Nat.eqb_spec T 1), (Nat.eqb_spec n 1); lia.
Qed.

Lemma broadcast_shape_slice_t (s1 s2 s : shape) (n : nat) :
  broadcast_shape s1 s2 = Some s -> dimT s1 = dimT s2 ->
  broadcast_shape (dimB s1, dimC s1, dimF s1, n) (dimB s2, dimC s2, dimF s2, n)
  = Some (dimB s, dimC s, dimF s, n).
Proof.
  destruct s1 as [[[B1 C1] F1] T1], s2 as [[[B2 C2] F2] T2].
  unfold broadcast_shape. cbn [dimB dimC dimF dimT]. intros H _.
  rewrite (broadcast_dim_same n).
  destruct (broadcast_dim B1 B2), (broadcast_dim C1 C2), (broadcast_dim F1 F2),
    (broadcast_dim T1 T2); try discriminate.
  injection H as <-. reflexivity.
Qed.

Lemma slice_t_zip_broadcast {A B C : Type} (g : A -> B -> C)
    (start stop : option Z) (x : tensor A) (y : tensor B) (z : tensor C) :
  dimT (size x) = dimT (size y) ->
  zip_broadcast g x y = Ok z ->
  exists z', zip_broadcast g (slice_t start stop x) (slice_t start stop y) = Ok z'
             /\ tensor_eq (slice_t start stop z) z'.
Proof.
  intros HT Hz. apply zip_broadcast_inv in Hz. destruct Hz as [Sz Ez].
  pose proof (broadcast_shape_T _ _ _ Sz HT) as HTz.
  pose proof (broadcast_shape_slice_t _ _ _
                (snd (py_slice start stop (dimT (size x)))) Sz HT) as Hb.
  unfold zip_broadcast. rewrite !slice_t_size. rewrite <- HT. rewrite Hb.
  eexists. split; [reflexivity |].
  unfold tensor_eq. rewrite slice_t_size. cbn [size dimB dimC dimF dimT].
  rewrite HTz. split; [reflexivity |].
  intros b c f t Hb' Hc Hf Ht. cbn [elem].
  rewrite !slice_t_elem, Ez, HTz, <- HT.
  destruct (py_slice_in_range start stop (dimT (size x))) as [H0 | Hin];
    [lia |].
  rewrite (bidx_slice _ _ _ _ Ht Hin). reflexivity.
Qed.

Lemma tensor_eq_trans {A : Type} (x y z : tensor A) :
  tensor_eq x y -> tensor_eq y z -> tensor_eq x z.
Proof.
  intros [S1 E1] [S2 E2]. split; [congruence |].
  intros b c f t Hb Hc Hf Ht. rewrite E1 by assumption.
  apply E2; rewrite <- S1; assumption.
Qed.

Lemma tensor_eq_sym {A : Type} (x y : tensor A) :
  tensor_eq x y -> tensor_eq y x.
Proof.
  intros [S1 E1]. split; [congruence |].
  intros b c f t Hb Hc Hf Ht. symmetry. apply E1; rewrite S1; assumption.
Qed.


Lemma trim_Tensor_mul (self : CascadedNet) (x y g : Tensor) :
  same_dtype x y ->
  dimT (Tensor_size x) = dimT (Tensor_size y) ->
  Tensor_mul x y = Ok g ->
  exists q, Tensor_mul (trim self x) (trim self y) = Ok q /\
            Tensor_eq (trim self g) q.
Proof.
  unfold same_dtype, trim, Tensor_mul, Tensor_slice_t.
  destruct x as [a | a], y as [b | b]; try contradiction;
    cbn [Tensor_size]; intros _ HT H; inv_bind H; injection H as <-.
  - destruct (slice_t_zip_broadcast Rmult
                (Some (Z.of_nat (offset self)))
                (Some (- Z.of_nat (offset self))%Z) a b v HT E)
      as (z' & Hz' & Heq).
    rewrite Hz'. cbn [bind]. eexists. split; [reflexivity | exact Heq].
  - destruct (slice_t_zip_broadcast Cmul
                (Some (Z.of_nat (offset self)))
                (Some (- Z.of_nat (offset self))%Z) a b v HT E)
      as (z' & Hz' & Heq).
    rewrite Hz'. cbn [bind]. eexists. split; [reflexivity | exact Heq].
Qed.

Section PredictProduct.
Context {L : Layers} {HL : LayersSpec L}.

Lemma forward_dtypes n_fft hop nout nol ic p x my mv :
  forward (CascadedNet_init n_fft hop nout nol ic p) x = Ok (my, mv) ->
  same_dtype x my /\ same_dtype x mv.
Proof.
  intros H. apply forward_masks in H.
  destruct H as (st & ry & rv & Hst & _ & _ & _ & _ & Py & Pv).
  apply forward_stages_shape in Hst. cbv zeta in Hst.
  destruct Hst as (_ & Hty & _).
  destruct Py as [_ Py]. destruct Pv as [_ Pv].
  destruct ic.
  - destruct Hty as [a ->], Py as (ay & -> & _), Pv as (av & -> & _).
    split; exact I.
  - destruct Hty as [a ->], Py as (ay & -> & _), Pv as (av & -> & _).
    split; exact I.
Qed.

(** C1, as the code has it: when [predict] and [predict_mask] both return,
    each result of [predict] is the elementwise product of the trimmed
    input itself (not truncated and padded) with the matching mask of
    [predict_mask]; both trim the time axis with the same
    [offset:-offset] slice and end with the same number of frames,
    [T - 2 * offset]. *)
Theorem predict_is_trimmed_product n_fft hop nout nol ic p x py pv my mv :
  let self := CascadedNet_init n_fft hop nout nol ic p in
  predict self x = Ok (py, pv) ->
  predict_mask self x = Ok (my, mv) ->
  (exists qy qv,
     Tensor_mul (trim self x) my = Ok qy /\
     Tensor_mul (trim self x) mv = Ok qv /\
     Tensor_eq py qy /\ Tensor_eq pv qv) /\
  (exists fy fv gy gv,
     forward self x = Ok (fy, fv) /\
     my = trim self fy /\ mv = trim self fv /\
     Tensor_mul x fy = Ok gy /\ Tensor_mul x fv = Ok gv /\
     py = trim self gy /\ pv = trim self gv) /\
  dimT (Tensor_size py) = dimT (Tensor_size my) /\
  dimT (Tensor_size pv) = dimT (Tensor_size mv) /\
  dimT (Tensor_size my) = dimT (Tensor_size x) - 2 * offset self /\
  dimT (Tensor_size mv) = dimT (Tensor_size x) - 2 * offset self /\
  0 < dimT (Tensor_size my).
Proof.
  intros self Hp Hm. subst self.
  set (self := CascadedNet_init n_fft hop nout nol ic p) in *.
  assert (Ho : 0 < offset self) by (cbn [self CascadedNet_init offset]; lia).
  assert (Ho64 : offset self = 64) by reflexivity.
  destruct (predict_ok_inv _ _ _ Hp) as (fy & fv & gy & gv & Hf & Hgy & Hgv).
  rewrite (predict_of_forward _ _ _ _ _ _ Hf Ho Hgy Hgv) in Hp.
  rewrite (predict_mask_of_forward _ _ _ _ Hf Ho) in Hm.
  destruct ((0 <? dimT (Tensor_size (trim self gy)))
            && (0 <? dimT (Tensor_size (trim self gv)))) eqn:Eg;
    [| discriminate].
  destruct ((0 <? dimT (Tensor_size (trim self fy)))
            && (0 <? dimT (Tensor_size (trim self fv)))) eqn:Ef;
    [| discriminate].
  injection Hp as <- <-. injection Hm as <- <-.
  pose proof Hf as Hs. apply forward_sizes in Hs.
  destruct Hs as (_ & _ & _ & _ & Sfy & Sfv).
  pose proof Hf as Hd. apply forward_dtypes in Hd. destruct Hd as [Dy Dv].
  assert (HTy : dimT (Tensor_size x) = dimT (Tensor_size fy))
    by (rewrite Sfy; reflexivity).
  assert (HTv : dimT (Tensor_size x) = dimT (Tensor_size fv))
    by (rewrite Sfv; reflexivity).
  destruct (trim_Tensor_mul self x fy gy Dy HTy Hgy) as (qy & Hqy & Eqy).
  destruct (trim_Tensor_mul self x fv gv Dv HTv Hgv) as (qv & Hqv & Eqv).
  pose proof (Tensor_mul_inv _ _ _ Hgy) as Bgy.
  pose proof (Tensor_mul_inv _ _ _ Hgv) as Bgv.
  apply broadcast_shape_T in Bgy; [| exact HTy].
  apply broadcast_shape_T in Bgv; [| exact HTv].
  rewrite (trim_size self gy Ho), (trim_size self gv Ho) in Eg.
  rewrite (trim_size self fy Ho), (trim_size self fv Ho) in Ef.
  rewrite (trim_size self gy Ho), (trim_size self gv Ho),
    (trim_size self fy Ho), (trim_size self fv Ho).
  cbn [dimT] in Ef, Eg |- *.
  split; [exists qy, qv; repeat split; assumption |].
  split; [exists fy, fv, gy, gv; repeat split; assumption |].
  repeat split; lia.
Qed.

End PredictProduct.

Lemma Tensor_mul_real_same (a b : tensor R) (q : Tensor) :
  size a = size b ->
  Tensor_mul (RealT a) (RealT b) = Ok q ->
  exists z, q = RealT z /\ size z = size a /\
    forall i c f t,
      i < dimB (size a) -> c < dimC (size a) ->
      f < dimF (size a) -> t < dimT (size a) ->
      elem z i c f t = (elem a i c f t * elem b i c f t)%R.
Proof.
  intros Hs H. cbn [Tensor_mul] in H.
  destruct (zip_broadcast_same Rmult a b Hs) as (z & Hz & Sz & Ez).
  rewrite Hz in H. cbn [bind] in H. injection H as <-.
  exists z. auto.
Qed.

Lemma predict_not_as_worded :
  ~ @predict_as_worded zero_layers net8 (ramp 5 130).
Proof.
  intros H.
  destruct (forward net8 (ramp 5 130)) as [[fy fv] | e] eqn:Hf;
    [| vm_compute in Hf; discriminate].
  pose proof (@forward_masks zero_layers zero_layers_spec
                8 2 32 128 false _ _ _ _ Hf) as Hm.
  destruct Hm as (st & ry & rv & _ & _ & _ & Sry & Srv & Py & Pv).
  destruct Py as [Sfy (ay & -> & Ey)]. destruct Pv as [Sfv (av & -> & Ev)].
  rewrite Srv in Sfv. rewrite Sry in Sfy, Sfv.
  cbn in Sfy, Sfv.
  assert (Ho : 0 < offset net8) by (cbn; lia).
  assert (Sx : Tensor_size (ramp 5 130) = (1, 2, 5, 130)) by reflexivity.
  assert (Hpm : predict_mask net8 (ramp 5 130)
                = Ok (trim net8 (RealT ay), trim net8 (RealT av))).
  { rewrite (predict_mask_of_forward _ _ _ _ Hf Ho).
    rewrite !(trim_size _ _ Ho). cbn [Tensor_size]. rewrite Sfy, Sfv.
    reflexivity. }
  destruct (Tensor_mul_returns (ramp 5 130) (RealT ay)) as (gy & Hgy & Sgy).
  { cbn [Tensor_size]. rewrite Sfy. reflexivity. }
  destruct (Tensor_mul_returns (ramp 5 130) (RealT av)) as (gv & Hgv & Sgv).
  { cbn [Tensor_size]. rewrite Sfv. reflexivity. }
  assert (Hp : predict net8 (ramp 5 130) = Ok (trim net8 gy, trim net8 gv)).
  { rewrite (predict_of_forward _ _ _ _ _ _ Hf Ho Hgy Hgv).
    rewrite !(trim_size _ _ Ho). rewrite Sgy, Sgv, Sx. reflexivity. }
  destruct (H _ _ _ _ Hp Hpm) as (xp & qy & qv & Hxp & Hqy & _ & Eqy & _).
  destruct (trim_Tensor_mul net8 (ramp 5 130) (RealT ay) gy I
              ltac:(cbn [Tensor_size]; rewrite Sfy; reflexivity) Hgy)
    as (qy0 & Hqy0 & Eqy0).
  unfold x_truncated_then_padded, ramp in Hxp. cbn in Hxp. injection Hxp as <-.
  unfold ramp in Hqy0.
  cbn [trim Tensor_slice_t] in Hqy, Hqy0, Eqy, Eqy0.
  apply Tensor_mul_real_same in Hqy, Hqy0.
  2, 3: rewrite !slice_t_size; cbn [size]; rewrite Sfy; reflexivity.
  destruct Hqy as (z & -> & Sz & Ez). destruct Hqy0 as (z0 & -> & Sz0 & Ez0).
  destruct gy as [g | g]; cbn [Tensor_slice_t Tensor_eq] in Eqy, Eqy0;
    [| contradiction].
  pose proof (tensor_eq_trans _ _ _ (tensor_eq_sym _ _ Eqy0) Eqy) as [_ E].
  specialize (E 0 0 4 0). rewrite Sz0 in E.
  assert (Hs : size (slice_t (Some (Z.of_nat (offset net8)))
                       (Some (- Z.of_nat (offset net8))%Z)
                       (mkT (1, 2, 5, 130) (fun _ _ f _ : nat => INR (f + 1))))
               = (1, 2, 5, 2)) by reflexivity.
  rewrite Hs in E, Ez0. cbn [dimB dimC dimF dimT] in E, Ez0.
  specialize (E ltac:(lia) ltac:(lia) ltac:(lia) ltac:(lia)).
  rewrite Ez0 in E by lia.
  rewrite Ez in E by (vm_compute; lia).
  rewrite !slice_t_elem in E. cbn [elem] in E. rewrite Ey in E.
  match type of E with
  | (_ * sigmoid ?r)%R = _ => pose proof (sigmoid_bounds r) as Hpos
  end.
  replace (INR (4 + 1)) with 5%R in E by (simpl; lra).
  replace (INR (Nat.min 4 3 + 1)) with 4%R in E by (simpl; lra).
  lra.
Qed.

(** ** The statements at concrete networks and inputs *)

(** [forward] returns on the small networks. *)
Lemma net8_forward_returns (F T : nat) :
  4 <= F -> 1 <= T ->
  exists my mv, forward net8 (ramp F T) = Ok (my, mv).
Proof.
  intros HF HT.
  apply (@forward_returns zero_layers zero_layers_spec 8 2 32 128 false);
    cbn; try lia; try reflexivity.
  unfold ramp. eauto.
Qed.

Lemma net8c_forward_returns (F T : nat) :
  4 <= F -> 1 <= T ->
  exists my mv, forward net8c (cramp F T) = Ok (my, mv).
Proof.
  intros HF HT.
  apply (@forward_returns zero_layers zero_layers_spec 8 2 32 128 true);
    cbn; try lia; try reflexivity.
  unfold cramp. eauto.
Qed.

Lemma predict_is_trimmed_product_witness :
  exists py pv my mv,
    predict net8 (ramp 5 130) = Ok (py, pv) /\
    predict_mask net8 (ramp 5 130) = Ok (my, mv) /\
    dimT (Tensor_size py) = dimT (Tensor_size my) /\
    dimT (Tensor_size my) = 2.
Proof.
  destruct (predict net8 (ramp 5 130)) as [[py pv] | e] eqn:Hp;
    [| vm_compute in Hp; discriminate].
  destruct (predict_mask net8 (ramp 5 130)) as [[my mv] | e] eqn:Hm;
    [| vm_compute in Hm; discriminate].
  exists py, pv, my, mv.
  split; [reflexivity |]. split; [reflexivity |].
  pose proof (@predict_is_trimmed_product zero_layers zero_layers_spec
                8 2 32 128 false _ (ramp 5 130) py pv my mv Hp Hm) as H.
  cbv zeta in H. destruct H as (_ & _ & H1 & _ & H2 & _).
  split; [exact H1 | exact H2].
Defined.

Lemma forward_mask_values_witness :
  exists my mv,
    forward net8c (cramp 5 3) = Ok (my, mv) /\ bounded_mask_eps = 1e-8%R.
Proof.
  destruct (net8c_forward_returns 5 3) as (my & mv & Hf); [lia | lia |].
  exists my, mv. split; [exact Hf |].
  exact (proj1 (@forward_mask_values zero_layers zero_layers_spec
                  8 2 32 128 true _ (cramp 5 3) my mv Hf)).
Defined.

Lemma scenario_n_fft_2048_witness :
  exists my mv,
    predict_mask (CascadedNet_init (L := zero_layers) 2048 512 32 128 false
                    (zero_params (fun _ _ => 0%R)))
                 (RealT (zeros (1, 2, 1025, 256))) = Ok (my, mv) /\
    Tensor_size my = (1, 2, 1025, 128) /\ Tensor_size mv = (1, 2, 1025, 128).
Proof.
  exact (proj2 (proj2 (proj2 (proj2 (proj2
    (@scenario_n_fft_2048 zero_layers zero_layers_spec 512
       (zero_params (fun _ _ => 0%R)) (zeros (1, 2, 1025, 256)) eq_refl)))))).
Defined.

Lemma band_split_witness :
  exists st,
    forward_stages (CascadedNet_init (L := zero_layers) 2048 512 32 128 false
                      (zero_params (fun _ _ => 0%R)))
                   (RealT (zeros (1, 2, 1025, 3))) = Ok st /\
    dimF (size (st_l1_in st)) = 512 /\ dimF (size (st_h1_in st)) = 512 /\
    dimF (size (st_aux1 st)) = 1024.
Proof.
  assert (H1024 : 2048 / 2 = 1024) by (vm_compute; reflexivity).
  destruct (@forward_stages_returns zero_layers zero_layers_spec
              2048 512 32 128 false (zero_params (fun _ _ => 0%R))
              (RealT (zeros (1, 2, 1025, 3)))) as [st Hst].
  - eauto.
  - reflexivity.
  - rewrite H1024. cbn [Tensor_size zeros size dimF]. lia.
  - cbn [Tensor_size zeros size dimT]. lia.
  - rewrite H1024. lia.
  - vm_compute. reflexivity.
  - vm_compute. reflexivity.
  - exists st. split; [exact Hst |].
    pose proof (@band_split zero_layers zero_layers_spec
                  2048 512 32 128 false _ _ st Hst) as H.
    cbv zeta in H.
    destruct H as (_ & _ & _ & _ & _ & _ & _ & _ & _ & _ & _ & H).
    destruct (H eq_refl) as (_ & _ & Hl & Hh & Ha).
    + cbn [CascadedNet_init max_bin]. rewrite H1024.
      cbn [Tensor_size zeros size dimF]. lia.
    + split; [exact Hl |]. split; [exact Hh | exact Ha].
Defined.

Lemma cascade_context_witness :
  exists st,
    forward_stages net8 (ramp 5 3) = Ok st /\
    dimC (size (st_l1_in st)) < dimC (size (st_l2_in st))
                              < dimC (size (st_f3_in st)).
Proof.
  destruct (@forward_stages_returns zero_layers zero_layers_spec
              8 2 32 128 false (zero_params (fun _ _ => 0%R)) (ramp 5 3))
    as [st Hst].
  - unfold ramp. eauto.
  - reflexivity.
  - cbn. lia.
  - cbn. lia.
  - cbn. lia.
  - reflexivity.
  - reflexivity.
  - exists st. split; [exact Hst |].
    pose proof (@cascade_context zero_layers zero_layers_spec
                  8 2 32 128 false _ _ st Hst) as H.
    cbv zeta in H.
    destruct H as (_ & _ & _ & _ & _ & _ & _ & _ & _ & _ & _ & _ & _ & _ & H).
    apply H. lia.
Defined.


Lemma predict_needs_output_bin_witness :
  (exists m, forward net8 (ramp 4 130) = Ok m) /\
  predict net8 (ramp 4 130) = Err RuntimeError.
Proof.
  pose proof (@predict_needs_output_bin zero_layers zero_layers_spec
                8 2 32 128 false (zero_params (fun _ _ => 0%R)) (ramp 4 130))
    as H.
  cbv zeta in H. destruct H as [Hacc Hrej].
  assert (Hf : exists m, forward net8 (ramp 4 130) = Ok m).
  { apply Hacc; cbn; try lia; try reflexivity. unfold ramp. eauto. }
  split; [exact Hf |].
  destruct Hf as [m Hf].
  destruct Hrej as [Hrt _]; [cbn; lia |].
  exact (Hrt m Hf).
Defined.

(* ================================================================== *)
(** * Further properties of the code *)

(** ** BaseNet *)

Section BaseNetExtras.
Context {L : Layers} {HL : LayersSpec L}.

(** The tensors of one call of a BaseNet, step by step. *)
Lemma BaseNet_call_inv nin nout nl nol dil p x y :
  BaseNet_call (BaseNet_init nin nout nl nol dil p) x = Ok y ->
  exists e1 e2 e3 e4 e5 a h4 h3 h2 l hc,
    Conv2DBNActiv nin nout 3 1 1 (p_enc1 p) x = Ok e1 /\
    Encoder nout (nout * 2) 3 2 1 (p_enc2 p) e1 = Ok e2 /\
    Encoder (nout * 2) (nout * 4) 3 2 1 (p_enc3 p) e2 = Ok e3 /\
    Encoder (nout * 4) (nout * 6) 3 2 1 (p_enc4 p) e3 = Ok e4 /\
    Encoder (nout * 6) (nout * 8) 3 2 1 (p_enc5 p) e4 = Ok e5 /\
    ASPPModule (nout * 8) (nout * 8) dil true (p_aspp p) e5 = Ok a /\
    Decoder (nout * (6 + 8)) (nout * 6) 3 1 1 (p_dec4 p) a e4 = Ok h4 /\
    Decoder (nout * (4 + 6)) (nout * 4) 3 1 1 (p_dec3 p) h4 e3 = Ok h3 /\
    Decoder (nout * (2 + 4)) (nout * 2) 3 1 1 (p_dec2 p) h3 e2 = Ok h2 /\
    LSTMModule (nout * 2) nl nol (p_lstm_dec2 p) h2 = Ok l /\
    torch_cat [h2; l] 1 = Ok hc /\
    Decoder (nout * (1 + 2) + 1) (nout * 1) 3 1 1 (p_dec1 p) hc e1 = Ok y.
Proof.
  unfold BaseNet_call, BaseNet_init.
  cbn [enc1 enc2 enc3 enc4 enc5 aspp dec4 dec3 dec2 lstm_dec2 dec1].
  intros H. repeat inv_bind H. injection H as <-.
  do 11 eexists. repeat split; eassumption.
Qed.

(** X1: a BaseNet returns exactly on the inputs that have [nin] channels,
    at least one frequency bin and one frame, and whose halved frequency
    extent [ceil(F / 2)] is the [nin_lstm] it was built with (the output of
    the recurrent module is concatenated to a map of that extent); the
    result has [nout] channels and the spatial shape of the input. *)
Theorem BaseNet_accepts nin nout nl nol dil p x :
  ((exists y, BaseNet_call (BaseNet_init nin nout nl nol dil p) x = Ok y) <->
   dimC (size x) = nin /\ 1 <= dimF (size x) /\ 1 <= dimT (size x) /\
   ceil_div (dimF (size x)) 2 = nl) /\
  forall y, BaseNet_call (BaseNet_init nin nout nl nol dil p) x = Ok y ->
            size y = (dimB (size x), nout, dimF (size x), dimT (size x)).
Proof.
  split; [split |].
  - intros [y Hy]. apply BaseNet_call_shape in Hy. tauto.
  - intros (HC & HF & HT & Hl). apply BaseNet_call_returns; assumption.
  - intros y Hy. apply BaseNet_call_shape in Hy.
    destruct Hy as (_ & _ & _ & _ & Sy). rewrite Sy. shape_eq.
Qed.

(** X2: in a call that returns, the encoders form a pyramid of widths
    [nout], [2 nout], [4 nout], [6 nout], [8 nout] whose spatial extents are
    halved (rounding up) four times, and the two tensors each decoder
    receives have channel counts that add up to the input width the
    constructor declared for it; the recurrent module contributes exactly
    one channel. *)
Theorem BaseNet_wiring nin nout nl nol dil p x y :
  BaseNet_call (BaseNet_init nin nout nl nol dil p) x = Ok y ->
  exists e1 e2 e3 e4 e5 a h4 h3 h2 l hc,
    Conv2DBNActiv nin nout 3 1 1 (p_enc1 p) x = Ok e1 /\
    Encoder nout (nout * 2) 3 2 1 (p_enc2 p) e1 = Ok e2 /\
    Encoder (nout * 2) (nout * 4) 3 2 1 (p_enc3 p) e2 = Ok e3 /\
    Encoder (nout * 4) (nout * 6) 3 2 1 (p_enc4 p) e3 = Ok e4 /\
    Encoder (nout * 6) (nout * 8) 3 2 1 (p_enc5 p) e4 = Ok e5 /\
    ASPPModule (nout * 8) (nout * 8) dil true (p_aspp p) e5 = Ok a /\
    Decoder (nout * (6 + 8)) (nout * 6) 3 1 1 (p_dec4 p) a e4 = Ok h4 /\
    Decoder (nout * (4 + 6)) (nout * 4) 3 1 1 (p_dec3 p) h4 e3 = Ok h3 /\
    Decoder (nout * (2 + 4)) (nout * 2) 3 1 1 (p_dec2 p) h3 e2 = Ok h2 /\
    LSTMModule (nout * 2) nl nol (p_lstm_dec2 p) h2 = Ok l /\
    torch_cat [h2; l] 1 = Ok hc /\
    Decoder (nout * (1 + 2) + 1) (nout * 1) 3 1 1 (p_dec1 p) hc e1 = Ok y /\
    let B := dimB (size x) in
    let F1 := dimF (size x) in let T1 := dimT (size x) in
    let F2 := ceil_div F1 2 in let T2 := ceil_div T1 2 in
    let F3 := ceil_div F2 2 in let T3 := ceil_div T2 2 in
    let F4 := ceil_div F3 2 in let T4 := ceil_div T3 2 in
    let F5 := ceil_div F4 2 in let T5 := ceil_div T4 2 in
    size e1 = (B, nout, F1, T1) /\ size e2 = (B, nout * 2, F2, T2) /\
    size e3 = (B, nout * 4, F3, T3) /\ size e4 = (B, nout * 6, F4, T4) /\
    size e5 = (B, nout * 8, F5, T5) /\ size a = (B, nout * 8, F5, T5) /\
    size h4 = (B, nout * 6, F4, T4) /\ size h3 = (B, nout * 4, F3, T3) /\
    size h2 = (B, nout * 2, F2, T2) /\ size l = (B, 1, F2, T2) /\
    size hc = (B, nout * 2 + 1, F2, T2) /\
    dimC (size a) + dimC (size e4) = nout * (6 + 8) /\
    dimC (size h4) + dimC (size e3) = nout * (4 + 6) /\
    dimC (size h3) + dimC (size e2) = nout * (2 + 4) /\
    dimC (size hc) + dimC (size e1) = nout * (1 + 2) + 1.
Proof.
  intros H. apply BaseNet_call_inv in H.
  destruct H as (e1 & e2 & e3 & e4 & e5 & a & h4 & h3 & h2 & l & hc
                 & H1 & H2 & H3 & H4 & H5 & Ha & Hd4 & Hd3 & Hd2 & Hl & Hc & Hy).
  exists e1, e2, e3, e4, e5, a, h4, h3, h2, l, hc.
  repeat (split; [assumption |]).
  cbv zeta.
  pose proof H1 as S1. apply Conv2DBNActiv_shape in S1.
  destruct S1 as ((_ & HF & HT & _) & S1).
  assert (S1' : size e1 = (dimB (size x), nout, dimF (size x), dimT (size x))).
  { rewrite S1. unfold conv_size, conv_out. shape_eq. }
  pose proof H2 as S2. apply Encoder_shape in S2.
  rewrite S1' in S2. unfold encoder_size in S2. cbn [dimB dimF dimT] in S2.
  pose proof H3 as S3. apply Encoder_shape in S3.
  rewrite S2 in S3. unfold encoder_size in S3. cbn [dimB dimF dimT] in S3.
  pose proof H4 as S4. apply Encoder_shape in S4.
  rewrite S3 in S4. unfold encoder_size in S4. cbn [dimB dimF dimT] in S4.
  pose proof H5 as S5. apply Encoder_shape in S5.
  rewrite S4 in S5. unfold encoder_size in S5. cbn [dimB dimF dimT] in S5.
  pose proof Ha as Sa. apply ASPPModule_shape in Sa.
  rewrite S5 in Sa. unfold aspp_size in Sa. cbn [dimB dimF dimT] in Sa.
  pose proof Hd4 as Sd4. apply Decoder_shape in Sd4.
  rewrite S4 in Sd4. unfold decoder_size in Sd4. cbn [dimB dimF dimT] in Sd4.
  pose proof Hd3 as Sd3. apply Decoder_shape in Sd3.
  rewrite S3 in Sd3. unfold decoder_size in Sd3. cbn [dimB dimF dimT] in Sd3.
  pose proof Hd2 as Sd2. apply Decoder_shape in Sd2.
  rewrite S2 in Sd2. unfold decoder_size in Sd2. cbn [dimB dimF dimT] in Sd2.
  pose proof Hl as Sl. apply LSTMModule_shape in Sl.
  rewrite Sd2 in Sl. unfold lstm_size in Sl. cbn [dimB dimT] in Sl.
  pose proof Hc as Sc. rewrite torch_cat2_dim1 in Sc. apply cat2_dim1_inv in Sc.
  destruct Sc as (_ & HFl & _ & Sc & _).
  rewrite Sd2, Sl in HFl. cbn [dimF] in HFl.
  rewrite Sd2, Sl in Sc. cbn [dimB dimC dimF dimT] in Sc.
  rewrite <- HFl in Sl.
  rewrite S1', S2, S3, S4, S5, Sa, Sd4, Sd3, Sd2, Sl, Sc. cbn [dimC].
  repeat split; lia.
Qed.

End BaseNetExtras.

Lemma BaseNet_accepts_witness :
  exists y,
    BaseNet_call (BaseNet_init (L := zero_layers) 2 8 2 128
                    default_dilations zero_base_params)
                 (zeros (1, 2, 4, 3)) = Ok y /\
    size y = (1, 8, 4, 3).
Proof.
  pose proof (@BaseNet_accepts zero_layers zero_layers_spec 2 8 2 128
                default_dilations zero_base_params (zeros (1, 2, 4, 3)))
    as [[_ Hret] Hsz].
  destruct Hret as [y Hy].
  - cbn. repeat split; lia.
  - exists y. split; [exact Hy | exact (Hsz y Hy)].
Defined.

Lemma BaseNet_wiring_witness :
  exists (y e5 : tensor R),
    BaseNet_call (BaseNet_init (L := zero_layers) 2 8 2 128
                    default_dilations zero_base_params)
                 (zeros (1, 2, 4, 3)) = Ok y /\
    size e5 = (1, 64, 1, 1).
Proof.
  destruct (@BaseNet_call_returns zero_layers zero_layers_spec 2 8 2 128
              default_dilations zero_base_params (zeros (1, 2, 4, 3)))
    as [y Hy]; try (cbn; lia).
  pose proof (@BaseNet_wiring zero_layers zero_layers_spec 2 8 2 128
                default_dilations zero_base_params _ y Hy) as H.
  destruct H as (e1 & e2 & e3 & e4 & e5 & a & h4 & h3 & h2 & l & hc & H).
  exists y, e5. split; [exact Hy |].
  destruct H as (_ & _ & _ & _ & _ & _ & _ & _ & _ & _ & _ & _ & H).
  cbv zeta in H. destruct H as (_ & _ & _ & _ & S5 & _).
  exact S5.
Defined.

(** ** What [forward] needs from the input and from the configuration *)

Section ForwardExtras.
Context {L : Layers} {HL : LayersSpec L}.

(** The constraints the five BaseNets put on the truncated frequency
    extent and on the channel arithmetic when [forward] reaches the stage-3
    output. *)
Lemma forward_stages_constraints n_fft hop nout nol ic p x st :
  forward_stages (CascadedNet_init n_fft hop nout nol ic p) x = Ok st ->
  let Fx := Nat.min (n_fft / 2) (dimF (Tensor_size x)) in
  ceil_div (Fx / 2) 2 = n_fft / 2 / 2 / 2 /\
  ceil_div (Fx - Fx / 2) 2 = n_fft / 2 / 2 / 2 /\
  ceil_div Fx 2 = n_fft / 2 / 2 /\
  nout / 4 + nout / 2 = 3 * nout / 4.
Proof.
  intros Hst Fx.
  pose proof Hst as Hinv. apply forward_stages_inv in Hinv.
  destruct Hinv as (x0 & _ & _ & _ & _ & Hl1 & Hh1 & _ & _ & _ & _ & _ & _
                    & _ & Hf3).
  apply forward_stages_shape in Hst. cbv zeta in Hst. fold Fx in Hst.
  destruct Hst as (_ & _ & _ & _ & Hsz).
  destruct Hsz as (_ & Sl1in & Sh1in & _ & _ & _ & _ & _ & _ & _ & _
                   & Sf3in & _).
  cbn [CascadedNet_init stg1_low_band_net stg1_high_band_net
       stg3_full_band_net] in Hl1, Hh1, Hf3.
  apply Sequential_inv in Hl1. destruct Hl1 as (z1 & Hz1 & _).
  apply BaseNet_call_shape in Hz1, Hh1, Hf3.
  destruct Hz1 as (_ & _ & _ & C1 & _). destruct Hh1 as (_ & _ & _ & C2 & _).
  destruct Hf3 as (C4 & _ & _ & C3 & _).
  rewrite Sl1in in C1. rewrite Sh1in in C2. rewrite Sf3in in C3, C4.
  cbn [dimC dimF] in C1, C2, C3, C4.
  repeat split; try assumption. lia.
Qed.

(** X3: [forward] returns only on an input whose dtype matches the mode
    (complex in complex mode, real in magnitude mode), with exactly two
    channels, at least one frame and at least [max(2, max_bin - 2)]
    frequency bins, and only in a network with [max_bin >= 2] and a base
    width [nout] that is not 3 modulo 4; on an input of at least [max_bin]
    bins it returns only when [max_bin] is a multiple of 4. *)
Theorem forward_requires n_fft hop nout nol ic p x my mv :
  forward (CascadedNet_init n_fft hop nout nol ic p) x = Ok (my, mv) ->
  let self := CascadedNet_init n_fft hop nout nol ic p in
  (if ic then exists a, x = CplxT a else exists a, x = RealT a) /\
  dimC (Tensor_size x) = 2 /\
  1 <= dimT (Tensor_size x) /\
  2 <= dimF (Tensor_size x) /\
  max_bin self - 2 <= dimF (Tensor_size x) /\
  2 <= max_bin self /\
  nout mod 4 <> 3 /\
  (max_bin self <= dimF (Tensor_size x) -> max_bin self mod 4 = 0).
Proof.
  intros H self. subst self. cbn [CascadedNet_init max_bin].
  apply forward_inv in H. destruct H as (st & _ & _ & Hst & _).
  pose proof Hst as Hc. apply forward_stages_constraints in Hc.
  cbv zeta in Hc. destruct Hc as (C1 & C2 & C3 & C4).
  apply forward_stages_shape in Hst. cbv zeta in Hst.
  destruct Hst as (HC & Hty & HFx & HT & _).
  unfold ceil_div in C1, C2, C3.
  split; [exact Hty |]. split; [exact HC |]. split; [exact HT |].
  repeat split; lia.
Qed.

(** X4: on an input of the matching dtype with two channels, at least one
    frame and at least [max_bin] frequency bins, [forward] returns exactly
    when [max_bin = n_fft // 2] is a positive multiple of 4 and the base
    width [nout] is at least 1 (with [nout = 0] the masks have no channel
    and the padding raises) and not 3 modulo 4 (for such a width the
    stage-3 network is built for [3 * nout // 4 + nin] channels but
    receives [nin + nout // 4 + nout // 2], one fewer). *)
Theorem forward_returns_iff n_fft hop nout nol (ic : bool) p (x : Tensor) :
  (if ic then exists a, x = CplxT a else exists a, x = RealT a) ->
  dimC (Tensor_size x) = 2 ->
  1 <= dimT (Tensor_size x) ->
  n_fft / 2 <= dimF (Tensor_size x) ->
  ((exists my mv,
      forward (CascadedNet_init n_fft hop nout nol ic p) x = Ok (my, mv)) <->
   4 <= n_fft / 2 /\ (n_fft / 2) mod 4 = 0 /\
   1 <= nout /\ nout mod 4 <> 3) /\
  (nout mod 4 = 3 -> nout / 4 + nout / 2 + 1 = 3 * nout / 4).
Proof.
  intros Hty HC HT HF. split; [split |].
  - intros (my & mv & H).
    pose proof (forward_nout_pos _ _ _ _ _ _ _ _ _ H) as Hn1.
    apply forward_inv in H. destruct H as (st & _ & _ & Hst & _).
    pose proof Hst as Hc. apply forward_stages_constraints in Hc.
    cbv zeta in Hc. destruct Hc as (C1 & C2 & C3 & C4).
    apply forward_stages_shape in Hst. cbv zeta in Hst.
    destruct Hst as (_ & _ & HFx & _ & _).
    rewrite (Nat.min_l _ _ HF) in C1, C2, C3, HFx.
    unfold ceil_div in C1, C2, C3. repeat split; lia.
  - intros (H4 & Hmod & Hn1 & Hn).
    apply forward_returns; try assumption. lia.
  - intros Hn. lia.
Qed.

End ForwardExtras.

Lemma forward_requires_witness :
  exists my mv,
    forward net8 (ramp 5 3) = Ok (my, mv) /\ max_bin net8 mod 4 = 0.
Proof.
  destruct (net8_forward_returns 5 3) as (my & mv & Hf); [lia | lia |].
  exists my, mv. split; [exact Hf |].
  pose proof (@forward_requires zero_layers zero_layers_spec
                8 2 32 128 false _ (ramp 5 3) my mv Hf) as H.
  cbv zeta in H.
  destruct H as (_ & _ & _ & _ & _ & _ & _ & H).
  apply H. cbn. lia.
Defined.

Lemma forward_returns_iff_witness :
  (exists my mv, forward net8 (ramp 5 3) = Ok (my, mv)) /\
  ~ (exists my mv,
       forward (CascadedNet_init (L := zero_layers) 8 2 7 128 false
                  (zero_params (fun _ _ => 0%R))) (ramp 5 3) = Ok (my, mv)).
Proof.
  split.
  - apply (@forward_returns_iff zero_layers zero_layers_spec
             8 2 32 128 false (zero_params (fun _ _ => 0%R)) (ramp 5 3)).
    + unfold ramp. eauto.
    + reflexivity.
    + cbn. lia.
    + cbn. lia.
    + cbn. repeat split; lia.
  - intros H.
    apply (@forward_returns_iff zero_layers zero_layers_spec
             8 2 7 128 false (zero_params (fun _ _ => 0%R)) (ramp 5 3)) in H.
    + destruct H as (_ & _ & _ & H). apply H. reflexivity.
    + unfold ramp. eauto.
    + reflexivity.
    + cbn. lia.
    + cbn. lia.
Defined.

(** ** When [predict_mask] and [predict] return, and what they return *)

Section RealFacts2.
Local Open Scope R_scope.

Lemma Cmul_RtoC (a b : R) : Cmul (RtoC a) (RtoC b) = RtoC (a * b).
Proof. unfold Cmul, RtoC. cbn [fst snd]. f_equal; ring. Qed.

End RealFacts2.

Lemma Tensor_mul_elem (x y g : Tensor) :
  same_dtype x y -> Tensor_size x = Tensor_size y ->
  Tensor_mul x y = Ok g ->
  Tensor_size g = Tensor_size x /\
  forall b c f t,
    b < dimB (Tensor_size x) -> c < dimC (Tensor_size x) ->
    f < dimF (Tensor_size x) -> t < dimT (Tensor_size x) ->
    Tensor_elem g b c f t
    = Cmul (Tensor_elem x b c f t) (Tensor_elem y b c f t).
Proof.
  unfold same_dtype.
  destruct x as [a | a], y as [b | b]; try contradiction;
    cbn [Tensor_size Tensor_mul]; intros _ Hs H.
  - destruct (zip_broadcast_same Rmult a b Hs) as (z & Hz & Sz & Ez).
    rewrite Hz in H. cbn [bind] in H. injection H as <-.
    cbn [Tensor_size Tensor_elem]. split; [exact Sz |].
    intros i c f t Hi Hc Hf Ht. rewrite Ez by assumption.
    symmetry. apply Cmul_RtoC.
  - destruct (zip_broadcast_same Cmul a b Hs) as (z & Hz & Sz & Ez).
    rewrite Hz in H. cbn [bind] in H. injection H as <-.
    cbn [Tensor_size Tensor_elem]. split; [exact Sz |].
    intros i c f t Hi Hc Hf Ht. apply Ez; assumption.
Qed.

Section PredictExtras.
Context {L : Layers} {HL : LayersSpec L}.

(** X5: [predict_mask] returns exactly when [forward] returns and the
    input has more than [2 * offset] frames; it then returns the masks of
    [forward] without their first and last [offset] frames: shape
    (B, 2, output_bin, T - 2 * offset), element [t] being element
    [offset + t] of the mask of [forward]. *)
Theorem predict_mask_returns_iff n_fft hop nout nol ic p x :
  let self := CascadedNet_init n_fft hop nout nol ic p in
  ((exists r, predict_mask self x = Ok r) <->
   (exists m, forward self x = Ok m) /\
   2 * offset self < dimT (Tensor_size x)) /\
  forall fy fv my mv,
    forward self x = Ok (fy, fv) -> predict_mask self x = Ok (my, mv) ->
    Tensor_size my
    = (dimB (Tensor_size x), 2, output_bin self,
       dimT (Tensor_size x) - 2 * offset self) /\
    Tensor_size mv = Tensor_size my /\
    forall b c f t,
      Tensor_elem my b c f t = Tensor_elem fy b c f (offset self + t) /\
      Tensor_elem mv b c f t = Tensor_elem fv b c f (offset self + t).
Proof.
  intros self. subst self.
  set (self := CascadedNet_init n_fft hop nout nol ic p) in *.
  assert (Ho : 0 < offset self) by (cbn [self CascadedNet_init offset]; lia).
  assert (Hkey : forall fy fv,
             forward self x = Ok (fy, fv) ->
             Tensor_size fy = (dimB (Tensor_size x), 2, output_bin self,
                               dimT (Tensor_size x)) /\
             Tensor_size fv = Tensor_size fy /\
             predict_mask self x
             = if 0 <? dimT (Tensor_size x) - offset self
                       - Nat.min (offset self) (dimT (Tensor_size x))
               then Ok (trim self fy, trim self fv) else Err AssertionError).
  { intros fy fv Hf. pose proof Hf as Hs. apply forward_sizes in Hs.
    destruct Hs as (_ & _ & _ & _ & Sfy & Sfv).
    split; [exact Sfy |]. split; [congruence |].
    rewrite (predict_mask_of_forward _ _ _ _ Hf Ho).
    rewrite (trim_size self fy Ho), (trim_size self fv Ho), Sfy, Sfv.
    cbn [dimT]. rewrite andb_diag. reflexivity. }
  split; [split |].
  - intros [r Hr]. destruct (predict_mask_ok_inv _ _ _ Hr) as [[fy fv] Hf].
    split; [eauto |].
    destruct (Hkey _ _ Hf) as (_ & _ & E). rewrite E in Hr.
    destruct (Nat.ltb_spec 0 (dimT (Tensor_size x) - offset self
                              - Nat.min (offset self) (dimT (Tensor_size x))));
      [lia | discriminate].
  - intros [[[fy fv] Hf] HT].
    destruct (Hkey _ _ Hf) as (_ & _ & E). rewrite E.
    destruct (Nat.ltb_spec 0 (dimT (Tensor_size x) - offset self
                              - Nat.min (offset self) (dimT (Tensor_size x))));
      [eauto | lia].
  - intros fy fv my mv Hf Hm.
    destruct (Hkey _ _ Hf) as (Sfy & Sfv & E). rewrite E in Hm.
    destruct (Nat.ltb_spec 0 (dimT (Tensor_size x) - offset self
                              - Nat.min (offset self) (dimT (Tensor_size x))))
      as [HT |]; [| discriminate].
    injection Hm as <- <-.
    rewrite (trim_size self fy Ho), (trim_size self fv Ho), Sfv, Sfy.
    cbn [dimB dimC dimF dimT].
    split; [shape_eq |]. split; [reflexivity |].
    intros b c f t.
    rewrite (trim_elem self fy b c f t Ho), (trim_elem self fv b c f t Ho).
    rewrite Sfv, Sfy. cbn [dimT].
    replace (Nat.min (offset self) (dimT (Tensor_size x))) with (offset self)
      by lia.
    split; reflexivity.
Qed.

(** X6: [predict] returns exactly when [forward] returns, the input has
    exactly [output_bin] frequency bins and more than [2 * offset] frames;
    whenever it returns, [predict_mask] returns as well, and both results
    have shape (B, 2, output_bin, T - 2 * offset). *)
Theorem predict_returns_iff n_fft hop nout nol ic p x :
  let self := CascadedNet_init n_fft hop nout nol ic p in
  ((exists r, predict self x = Ok r) <->
   (exists m, forward self x = Ok m) /\
   dimF (Tensor_size x) = output_bin self /\
   2 * offset self < dimT (Tensor_size x)) /\
  ((exists r, predict self x = Ok r) ->
   exists r', predict_mask self x = Ok r') /\
  forall py pv,
    predict self x = Ok (py, pv) ->
    Tensor_size py
    = (dimB (Tensor_size x), 2, output_bin self,
       dimT (Tensor_size x) - 2 * offset self) /\
    Tensor_size pv = Tensor_size py.
Proof.
  intros self. subst self.
  set (self := CascadedNet_init n_fft hop nout nol ic p) in *.
  assert (Ho : 0 < offset self) by (cbn [self CascadedNet_init offset]; lia).
  assert (Hinv : forall py pv,
             predict self x = Ok (py, pv) ->
             exists fy fv gy gv,
               forward self x = Ok (fy, fv) /\
               dimF (Tensor_size x) = output_bin self /\
               2 * offset self < dimT (Tensor_size x) /\
               Tensor_size gy = Tensor_size x /\
               Tensor_size gv = Tensor_size x /\
               py = trim self gy /\ pv = trim self gv).
  { intros py pv Hp.
    destruct (predict_ok_inv _ _ _ Hp) as (fy & fv & gy & gv & Hf & Hgy & Hgv).
    pose proof Hf as Hs. apply forward_sizes in Hs.
    destruct Hs as (HC & HM & HF & _ & Sfy & Sfv).
    pose proof (Tensor_mul_inv _ _ _ Hgy) as By.
    assert (HFo : dimF (Tensor_size x) = output_bin self).
    { apply broadcast_shape_F in By. rewrite Sfy in By. cbn [dimF] in By.
      cbn [self CascadedNet_init output_bin]. lia. }
    assert (Sx : Tensor_size x = Tensor_size fy).
    { rewrite Sfy, (size_eta (Tensor_size x)), HC, HFo. reflexivity. }
    destruct (Tensor_mul_returns x fy Sx) as (gy' & Hgy' & Sgy).
    destruct (Tensor_mul_returns x fv ltac:(congruence)) as (gv' & Hgv' & Sgv).
    assert (gy' = gy) by congruence. assert (gv' = gv) by congruence.
    subst gy' gv'.
    rewrite (predict_of_forward _ _ _ _ _ _ Hf Ho Hgy Hgv) in Hp.
    rewrite (trim_size self gy Ho), (trim_size self gv Ho), Sgy, Sgv in Hp.
    cbn [dimT] in Hp. rewrite andb_diag in Hp.
    destruct (Nat.ltb_spec 0 (dimT (Tensor_size x) - offset self
                              - Nat.min (offset self) (dimT (Tensor_size x))))
      as [HT |]; [| discriminate].
    injection Hp as <- <-.
    exists fy, fv, gy, gv. repeat split; try assumption; try reflexivity. lia. }
  split; [split |]; [| | split].
  - intros [[py pv] Hp].
    destruct (Hinv _ _ Hp) as (fy & fv & gy & gv & Hf & HF & HT & _).
    split; [eauto |]. split; assumption.
  - intros ([[fy fv] Hf] & HF & HT).
    pose proof Hf as Hs. apply forward_sizes in Hs.
    destruct Hs as (HC & _ & _ & _ & Sfy & Sfv).
    assert (Sx : Tensor_size x = Tensor_size fy).
    { rewrite Sfy, (size_eta (Tensor_size x)), HC, HF. reflexivity. }
    destruct (Tensor_mul_returns x fy Sx) as (gy & Hgy & Sgy).
    destruct (Tensor_mul_returns x fv ltac:(congruence)) as (gv & Hgv & Sgv).
    rewrite (predict_of_forward _ _ _ _ _ _ Hf Ho Hgy Hgv).
    rewrite (trim_size self gy Ho), (trim_size self gv Ho), Sgy, Sgv.
    cbn [dimT]. rewrite andb_diag.
    destruct (Nat.ltb_spec 0 (dimT (Tensor_size x) - offset self
                              - Nat.min (offset self) (dimT (Tensor_size x))));
      [eauto | lia].
  - intros [[py pv] Hp].
    destruct (Hinv _ _ Hp) as (fy & fv & gy & gv & Hf & HF & HT & _).
    pose proof Hf as Hs. apply forward_sizes in Hs.
    destruct Hs as (_ & _ & _ & _ & Sfy & Sfv).
    rewrite (predict_mask_of_forward _ _ _ _ Hf Ho).
    rewrite (trim_size self fy Ho), (trim_size self fv Ho), Sfy, Sfv.
    cbn [dimT]. rewrite andb_diag.
    destruct (Nat.ltb_spec 0 (dimT (Tensor_size x) - offset self
                              - Nat.min (offset self) (dimT (Tensor_size x))));
      [eauto | lia].
  - intros py pv Hp.
    destruct (Hinv _ _ Hp)
      as (fy & fv & gy & gv & Hf & HF & HT & Sgy & Sgv & -> & ->).
    apply forward_sizes in Hf. destruct Hf as (HC & _).
    rewrite (trim_size self gy Ho), (trim_size self gv Ho), Sgy, Sgv.
    split; [| reflexivity]. rewrite HC, HF. shape_eq.
Qed.

End PredictExtras.

Section PredictElements.
Context {L : Layers} {HL : LayersSpec L}.

(** X7: when [predict] returns, [predict_mask] returns too and, element by
    element, each result of [predict] is the product (the complex product
    in complex mode) of the input element [offset] frames later with the
    matching element of the mask of [predict_mask]. *)
Theorem predict_elements n_fft hop nout nol ic p x py pv :
  let self := CascadedNet_init n_fft hop nout nol ic p in
  predict self x = Ok (py, pv) ->
  exists my mv,
    predict_mask self x = Ok (my, mv) /\
    forall b c f t,
      b < dimB (Tensor_size x) -> c < 2 -> f < output_bin self ->
      t < dimT (Tensor_size x) - 2 * offset self ->
      Tensor_elem py b c f t
      = Cmul (Tensor_elem x b c f (offset self + t)) (Tensor_elem my b c f t) /\
      Tensor_elem pv b c f t
      = Cmul (Tensor_elem x b c f (offset self + t)) (Tensor_elem mv b c f t).
Proof.
  intros self Hp. subst self.
  set (self := CascadedNet_init n_fft hop nout nol ic p) in *.
  assert (Ho : 0 < offset self) by (cbn [self CascadedNet_init offset]; lia).
  destruct (predict_ok_inv _ _ _ Hp) as (fy & fv & gy & gv & Hf & Hgy & Hgv).
  pose proof Hf as Hs. apply forward_sizes in Hs.
  destruct Hs as (HC & HM & HF & _ & Sfy & Sfv).
  pose proof Hf as Hd. apply forward_dtypes in Hd. destruct Hd as [Dy Dv].
  assert (HFo : dimF (Tensor_size x) = output_bin self).
  { pose proof (Tensor_mul_inv _ _ _ Hgy) as By.
    apply broadcast_shape_F in By. rewrite Sfy in By. cbn [dimF] in By.
    cbn [self CascadedNet_init output_bin]. lia. }
  assert (Sxy : Tensor_size x = Tensor_size fy).
  { rewrite Sfy, (size_eta (Tensor_size x)), HC, HFo. reflexivity. }
  assert (Sxv : Tensor_size x = Tensor_size fv) by congruence.
  destruct (Tensor_mul_elem x fy gy Dy Sxy Hgy) as [Sgy Egy].
  destruct (Tensor_mul_elem x fv gv Dv Sxv Hgv) as [Sgv Egv].
  rewrite (predict_of_forward _ _ _ _ _ _ Hf Ho Hgy Hgv) in Hp.
  rewrite (trim_size self gy Ho), (trim_size self gv Ho), Sgy, Sgv in Hp.
  cbn [dimT] in Hp. rewrite andb_diag in Hp.
  destruct (Nat.ltb_spec 0 (dimT (Tensor_size x) - offset self
                            - Nat.min (offset self) (dimT (Tensor_size x))))
    as [HT |]; [| discriminate].
  injection Hp as <- <-.
  exists (trim self fy), (trim self fv).
  split.
  { rewrite (predict_mask_of_forward _ _ _ _ Hf Ho).
    rewrite (trim_size self fy Ho), (trim_size self fv Ho), Sfy, Sfv.
    cbn [dimT]. rewrite andb_diag.
    destruct (Nat.ltb_spec 0 (dimT (Tensor_size x) - offset self
                              - Nat.min (offset self) (dimT (Tensor_size x))));
      [reflexivity | lia]. }
  intros b c f t Hb Hc Hf' Ht.
  rewrite !(trim_elem self _ b c f t Ho).
  rewrite Sgy, Sgv, <- Sxy, <- Sxv.
  replace (Nat.min (offset self) (dimT (Tensor_size x))) with (offset self)
    by lia.
  assert (Hin : offset self + t < dimT (Tensor_size x)) by lia.
  rewrite (Egy b c f (offset self + t)), (Egv b c f (offset self + t));
    try assumption; try lia.
  split; reflexivity.
Qed.

(** X9: [forward] does not insist on [max_bin] frequency bins: when it
    returns on an input with fewer, the input is at most two bins short,
    the masks still have [output_bin] rows, and at least two of them (all
    rows from the last input bin on) are copies of one row. *)
Theorem forward_short_input n_fft hop nout nol ic p x my mv :
  let self := CascadedNet_init n_fft hop nout nol ic p in
  forward self x = Ok (my, mv) ->
  dimF (Tensor_size x) < max_bin self ->
  let F := dimF (Tensor_size x) in
  max_bin self - 2 <= F /\
  2 <= output_bin self - F /\
  Tensor_size my
  = (dimB (Tensor_size x), 2, output_bin self, dimT (Tensor_size x)) /\
  Tensor_size mv = Tensor_size my /\
  forall b c f t,
    b < dimB (Tensor_size x) -> c < 2 -> t < dimT (Tensor_size x) ->
    F - 1 <= f ->
    Tensor_elem my b c f t = Tensor_elem my b c (F - 1) t /\
    Tensor_elem mv b c f t = Tensor_elem mv b c (F - 1) t.
Proof.
  intros self H HF F. subst self F.
  cbn [CascadedNet_init max_bin output_bin] in *.
  pose proof H as Hs. apply forward_sizes in Hs.
  destruct Hs as (_ & _ & _ & _ & Smy & Smv).
  pose proof H as Hm. apply forward_masks in Hm.
  destruct Hm as (st & ry & rv & Hst & _ & _ & Sry & Srv & Py & Pv).
  apply forward_stages_constraints in Hst. cbv zeta in Hst.
  destruct Hst as (_ & _ & C3 & _). unfold ceil_div in C3.
  unfold padded_mask in Py, Pv. rewrite Srv in Pv. rewrite Sry in Py, Pv.
  cbn [dimB dimC dimF dimT] in Py, Pv.
  replace (Nat.min (n_fft / 2) (dimF (Tensor_size x)))
    with (dimF (Tensor_size x)) in Py, Pv by lia.
  destruct Py as [_ Py]. destruct Pv as [_ Pv].
  split; [lia |]. split; [lia |]. split; [exact Smy |].
  split; [congruence |].
  intros b c f t Hb Hc Ht Hf.
  destruct ic.
  - destruct Py as (ay & -> & Ey). destruct Pv as (av & -> & Ev).
    cbn [Tensor_elem].
    rewrite (Ey b c f t Hb Hc Ht), (Ev b c f t Hb Hc Ht).
    rewrite (Ey b c _ t Hb Hc Ht), (Ev b c _ t Hb Hc Ht).
    replace (Nat.min f (dimF (Tensor_size x) - 1))
      with (dimF (Tensor_size x) - 1) by lia.
    rewrite Nat.min_id. split; reflexivity.
  - destruct Py as (ay & -> & Ey). destruct Pv as (av & -> & Ev).
    cbn [Tensor_elem]. rewrite (Ey b c f t), (Ev b c f t).
    rewrite (Ey b c (dimF (Tensor_size x) - 1) t),
      (Ev b c (dimF (Tensor_size x) - 1) t).
    replace (Nat.min f (dimF (Tensor_size x) - 1))
      with (dimF (Tensor_size x) - 1) by lia.
    rewrite Nat.min_id. split; reflexivity.
Qed.

(** X10: the shapes of all tensors of [forward] up to the raw masks: with
    [Fx = min(max_bin, F)] bins after truncation, the bands have [Fx // 2]
    and [Fx - Fx // 2] bins; the stage-1 outputs have [nout // 4] channels,
    the stage-2 outputs [nout // 2], the stage-3 output [nout]; [aux1] and
    [aux2] span all [Fx] bins; batch and frame extents never change. *)
Theorem forward_stage_shapes n_fft hop nout nol ic p x st :
  forward_stages (CascadedNet_init n_fft hop nout nol ic p) x = Ok st ->
  let B := dimB (Tensor_size x) in
  let T := dimT (Tensor_size x) in
  let nin := if ic then 4 else 2 in
  let Fx := Nat.min (n_fft / 2) (dimF (Tensor_size x)) in
  size (st_x st) = (B, nin, Fx, T) /\
  size (st_l1_in st) = (B, nin, Fx / 2, T) /\
  size (st_h1_in st) = (B, nin, Fx - Fx / 2, T) /\
  size (st_l1 st) = (B, nout / 4, Fx / 2, T) /\
  size (st_h1 st) = (B, nout / 4, Fx - Fx / 2, T) /\
  size (st_aux1 st) = (B, nout / 4, Fx, T) /\
  size (st_l2_in st) = (B, nin + nout / 4, Fx / 2, T) /\
  size (st_h2_in st) = (B, nin + nout / 4, Fx - Fx / 2, T) /\
  size (st_l2 st) = (B, nout / 2, Fx / 2, T) /\
  size (st_h2 st) = (B, nout / 2, Fx - Fx / 2, T) /\
  size (st_aux2 st) = (B, nout / 2, Fx, T) /\
  size (st_f3_in st) = (B, nin + nout / 4 + nout / 2, Fx, T) /\
  size (st_f3 st) = (B, nout, Fx, T).
Proof.
  intros H. apply forward_stages_shape in H. cbv zeta in H |- *.
  destruct H as (_ & _ & _ & _ & H). exact H.
Qed.

End PredictElements.

Lemma predict_mask_returns_iff_witness :
  exists my mv,
    predict_mask net8 (ramp 4 130) = Ok (my, mv) /\
    Tensor_size my = (1, 2, 5, 2).
Proof.
  pose proof (@predict_mask_returns_iff zero_layers zero_layers_spec
                8 2 32 128 false (zero_params (fun _ _ => 0%R)) (ramp 4 130))
    as H.
  cbv zeta in H. destruct H as [[_ Hret] Hsz].
  destruct (net8_forward_returns 4 130) as (fy & fv & Hf); [lia | lia |].
  destruct Hret as [[my mv] Hm].
  - split; [exists (fy, fv); exact Hf | cbn; lia].
  - exists my, mv. split; [exact Hm |].
    exact (proj1 (Hsz fy fv my mv Hf Hm)).
Defined.

Lemma predict_returns_iff_witness :
  exists py pv,
    predict net8 (ramp 5 130) = Ok (py, pv) /\
    Tensor_size py = (1, 2, 5, 2).
Proof.
  pose proof (@predict_returns_iff zero_layers zero_layers_spec
                8 2 32 128 false (zero_params (fun _ _ => 0%R)) (ramp 5 130))
    as H.
  cbv zeta in H. destruct H as ([_ Hret] & _ & Hsz).
  destruct (net8_forward_returns 5 130) as (fy & fv & Hf); [lia | lia |].
  destruct Hret as [[py pv] Hp].
  - split; [exists (fy, fv); exact Hf |]. split; [reflexivity | cbn; lia].
  - exists py, pv. split; [exact Hp |].
    exact (proj1 (Hsz py pv Hp)).
Defined.

Lemma predict_elements_witness :
  exists py pv my mv,
    predict net8 (ramp 5 130) = Ok (py, pv) /\
    predict_mask net8 (ramp 5 130) = Ok (my, mv) /\
    Tensor_elem py 0 0 4 1
    = Cmul (Tensor_elem (ramp 5 130) 0 0 4 65) (Tensor_elem my 0 0 4 1).
Proof.
  destruct (predict net8 (ramp 5 130)) as [[py pv] | e] eqn:Hp;
    [| vm_compute in Hp; discriminate].
  pose proof (@predict_elements zero_layers zero_layers_spec
                8 2 32 128 false _ (ramp 5 130) py pv Hp) as H.
  cbv zeta in H. destruct H as (my & mv & Hm & H).
  exists py, pv, my, mv. split; [reflexivity |]. split; [exact Hm |].
  destruct (H 0 0 4 1) as [Hy _]; try (cbn; lia).
  exact Hy.
Defined.

Lemma forward_short_input_witness :
  exists my mv,
    forward net8 (ramp 3 3) = Ok (my, mv) /\
    Tensor_size my = (1, 2, 5, 3) /\
    Tensor_elem my 0 0 4 0 = Tensor_elem my 0 0 2 0.
Proof.
  destruct (forward net8 (ramp 3 3)) as [[my mv] | e] eqn:Hf;
    [| vm_compute in Hf; discriminate].
  exists my, mv. split; [reflexivity |].
  pose proof (@forward_short_input zero_layers zero_layers_spec
                8 2 32 128 false _ (ramp 3 3) my mv Hf) as H.
  cbv zeta in H. destruct H as (_ & _ & Smy & _ & He).
  - cbn. lia.
  - split; [exact Smy |].
    destruct (He 0 0 4 0) as [Hy _]; try (cbn; lia).
    exact Hy.
Defined.

Lemma forward_stage_shapes_witness :
  exists st,
    forward_stages net8 (ramp 5 3) = Ok st /\
    size (st_aux2 st) = (1, 16, 4, 3) /\ size (st_f3 st) = (1, 32, 4, 3).
Proof.
  destruct (@forward_stages_returns zero_layers zero_layers_spec
              8 2 32 128 false (zero_params (fun _ _ => 0%R)) (ramp 5 3))
    as [st Hst].
  - unfold ramp. eauto.
  - reflexivity.
  - cbn. lia.
  - cbn. lia.
  - cbn. lia.
  - reflexivity.
  - reflexivity.
  - exists st. split; [exact Hst |].
    pose proof (@forward_stage_shapes zero_layers zero_layers_spec
                  8 2 32 128 false _ _ st Hst) as H.
    cbv zeta in H.
    destruct H as (_ & _ & _ & _ & _ & _ & _ & _ & _ & _ & Sa & _ & Sf).
    split; [exact Sa | exact Sf].
Defined.


(** ** Where C6 and C8 as worded fail *)

(** With base width 2 the stages run to the stage-3 output, and the
    stage-2 input has the two channels of the stage-1 input: the stage-1
    output has [nout // 4 = 0] channels. *)
Lemma cascade_context_not_strict :
  ~ context_strictly_grows net8_width2 (ramp 5 3).
Proof.
  intros H.
  destruct (@forward_stages_returns zero_layers zero_layers_spec
              8 2 2 128 false (zero_params (fun _ _ => 0%R)) (ramp 5 3))
    as [st Hst].
  - unfold ramp. eauto.
  - reflexivity.
  - cbn. lia.
  - cbn. lia.
  - cbn. lia.
  - reflexivity.
  - reflexivity.
  - destruct (H st Hst) as [Hlt _].
    apply (@forward_stages_shape zero_layers zero_layers_spec) in Hst.
    cbv zeta in Hst. destruct Hst as (_ & _ & _ & _ & Hsz).
    destruct Hsz as (_ & Sl1in & _ & _ & _ & _ & Sl2in & _).
    rewrite Sl1in, Sl2in in Hlt. cbn in Hlt. lia.
Qed.

